(** * Strapi admin core: schema inspector, page guards, document delete

    A shallow embedding of
    - the PostgreSQL schema inspector ([toStrapiType], [getIndexType],
      [getTables], [getColumns], [getIndexes], [parseIndexColumns],
      [getForeignKeys] and its two helpers),
    - the [Protect] page guard of [PageHelpers.tsx],
    - the delete path of the document service,
    together with the properties stated for them.

    JavaScript strings are modelled as [string], read as sequences of code
    units below 256 (the Latin-1 range); the string primitives below are
    exact on that range. *)

From Stdlib Require Import ZArith Ascii String.
From stdpp Require Import base decidable option list strings gmap fin_maps.

Local Open Scope string_scope.
Local Open Scope Z_scope.

(** ** JavaScript string primitives *)

Module Js.

(** Values that appear as column arguments. *)
#[warnings="-register-all"]
Inductive value :=
| undefined
| null
| bool_ (b : bool)
| num (z : Z)
| str (s : string)
| obj (props : list (string * value)).

(** [String.prototype.toLowerCase] on one code unit: A-Z, and the
    Latin-1 capitals U+00C0..U+00DE without the multiplication sign. *)
Definition lower_unit (c : ascii) : ascii :=
  let n := N_of_ascii c in
  if ((65 <=? n) && (n <=? 90))%N then ascii_of_N (n + 32)
  else if ((192 <=? n) && (n <=? 222) && negb (n =? 215))%N then ascii_of_N (n + 32)
  else c.

Fixpoint toLowerCase (s : string) : string :=
  match s with
  | EmptyString => EmptyString
  | String c t => String (lower_unit c) (toLowerCase t)
  end.

(** [hay.startsWith(needle)]. *)
Fixpoint startsWith (needle hay : string) : bool :=
  match needle, hay with
  | EmptyString, _ => true
  | String _ _, EmptyString => false
  | String a n, String b h => if Ascii.eqb a b then startsWith n h else false
  end.

(** [hay.includes(needle)]. *)
Fixpoint includes (needle hay : string) : bool :=
  if startsWith needle hay then true
  else match hay with
       | EmptyString => false
       | String _ h => includes needle h
       end.

(** [s.split(',')] for a one-character separator: never empty. *)
Fixpoint split (sep : ascii) (s : string) : list string :=
  match s with
  | EmptyString => [EmptyString]
  | String c t =>
      if Ascii.eqb c sep then EmptyString :: split sep t
      else match split sep t with
           | [] => [String c EmptyString]
           | w :: ws => String c w :: ws
           end
  end.

(** White space and line terminators removed by [trim]. *)
Definition is_space (c : ascii) : bool :=
  let n := N_of_ascii c in
  (((9 <=? n) && (n <=? 13)) || (n =? 32) || (n =? 160))%N.

Fixpoint trimStart (s : string) : string :=
  match s with
  | EmptyString => EmptyString
  | String c t => if is_space c then trimStart t else s
  end.

Fixpoint trimEnd (s : string) : string :=
  match s with
  | EmptyString => EmptyString
  | String c t =>
      match trimEnd t with
      | EmptyString => if is_space c then EmptyString else String c EmptyString
      | t' => String c t'
      end
  end.

Definition trim (s : string) : string := trimEnd (trimStart s).

(** Truthiness of a nullable string: [null] and [''] are falsy. *)
Definition truthy_string (s : option string) : bool :=
  match s with
  | None | Some EmptyString => false
  | Some _ => true
  end.

(** Truthiness of a possibly absent boolean property. *)
Definition truthy_flag (b : option bool) : bool :=
  match b with
  | Some true => true
  | _ => false
  end.

End Js.

(** ** PostgreSQL schema inspector *)

Module Column.
Record t := mk {
  type : string;
  args : list Js.value;
  defaultTo : option string;   (* [None] is [null] *)
  name : string;
  notNullable : bool;
  unsigned : bool
}.
End Column.

Module Index.
Record t := mk {
  name : string;
  columns : list string;
  type : option string         (* [None] is [undefined] *)
}.
End Index.

Module ForeignKey.
Record t := mk {
  name : string;
  columns : list string;
  referencedTable : option string;   (* [None] is [null] *)
  referencedColumns : list string;
  onUpdate : string;
  onDelete : string
}.
End ForeignKey.

Module Inspector.

Record RawColumn := {
  data_type : string;
  column_name : string;
  character_maximum_length : option Z;   (* [None] is SQL NULL *)
  column_default : option string;        (* [None] is SQL NULL *)
  is_nullable : string
}.

(** A property that a row object does not carry reads as [undefined],
    which is [None] here. *)
Record RawIndex := {
  indexrelid : option string;
  index_name : option string;
  index_column_name : option string;
  is_unique : option bool;
  is_primary : option bool
}.

(** *** The regular expression [/[^(), ]+/] *)

Definition is_delim (c : ascii) : bool :=
  Ascii.eqb c "(" || Ascii.eqb c ")" || Ascii.eqb c "," || Ascii.eqb c " ".

(** The longest prefix without a delimiter. *)
Fixpoint run (s : string) : string :=
  match s with
  | EmptyString => EmptyString
  | String c t => if is_delim c then EmptyString else String c (run t)
  end.

(** [s.match(/[^(), ]+/)?.[0]]: the first maximal run of characters
    other than parentheses, commas and blanks; [None] is [undefined]. *)
Fixpoint rootTypeOf (s : string) : option string :=
  match s with
  | EmptyString => None
  | String c t => if is_delim c then rootTypeOf t else Some (run s)
  end.

(** What [toStrapiType] returns: [type] and, in some cases, [args]. *)
Record StrapiType := {
  st_type : string;
  st_args : option (list Js.value)
}.

(** A [case] label of the [switch]: strict equality with the root type. *)
Definition is_case (rootType : option string) (label : string) : bool :=
  match rootType with
  | Some r => String.eqb r label
  | None => false
  end.

Definition toStrapiType (column : RawColumn) : StrapiType :=
  let rootType := rootTypeOf (Js.toLowerCase (data_type column)) in
  if is_case rootType "integer" then
    {| st_type := "integer"; st_args := None |}
  else if is_case rootType "text" then
    {| st_type := "text"; st_args := Some [Js.str "longtext"] |}
  else if is_case rootType "boolean" then
    {| st_type := "boolean"; st_args := None |}
  else if is_case rootType "character" then
    {| st_type := "string";
       st_args := Some [match character_maximum_length column with
                        | Some n => Js.num n
                        | None => Js.null
                        end] |}
  else if is_case rootType "timestamp" then
    {| st_type := "datetime";
       st_args := Some [Js.obj [("useTz", Js.bool_ false); ("precision", Js.num 6)]] |}
  else if is_case rootType "date" then
    {| st_type := "date"; st_args := None |}
  else if is_case rootType "time" then
    {| st_type := "time"; st_args := Some [Js.obj [("precision", Js.num 3)]] |}
  else if is_case rootType "numeric" then
    {| st_type := "decimal"; st_args := Some [Js.num 10; Js.num 2] |}
  else if is_case rootType "real" || is_case rootType "double" then
    {| st_type := "double"; st_args := None |}
  else if is_case rootType "bigint" then
    {| st_type := "bigInteger"; st_args := None |}
  else if is_case rootType "jsonb" then
    {| st_type := "jsonb"; st_args := None |}
  else
    {| st_type := "specificType"; st_args := Some [Js.str (data_type column)] |}.

Definition getIndexType (index : RawIndex) : option string :=
  if Js.truthy_flag (is_primary index) then Some "primary"
  else if Js.truthy_flag (is_unique index) then Some "unique"
  else None.

(** *** The catalog

    The inspector reads two catalog relations through the query builder:
    [information_schema.columns] and [pg_indexes].  Only the columns that
    the queries mention are kept. *)

Record CatalogColumn := {
  table_schema : string;
  table_name : string;
  selected : RawColumn           (* the five selected columns *)
}.

Record PgIndex := {
  schemaname : string;
  tablename : string;
  indexname : string;
  indexdef : string
}.

Record Database := {
  getSchemaName : option string;               (* [None] is [undefined] *)
  information_schema_columns : list CatalogColumn;
  pg_indexes : list PgIndex
}.

(** [this.db.getSchemaName() || 'public'] *)
Definition getDatabaseSchema (db : Database) : string :=
  match getSchemaName db with
  | Some s => if Js.truthy_string (Some s) then s else "public"
  | None => "public"
  end.

(** [column.column_default && column.column_default.includes('nextval(')
     ? null : column.column_default] *)
Definition surfacedDefault (column : RawColumn) : option string :=
  let isSequence :=
    match column_default column with
    | Some d => Js.truthy_string (Some d) && Js.includes "nextval(" d
    | None => false
    end in
  if isSequence then None else column_default column.

(** The callback of [columns.map] in [getColumns].  Every object that
    [toStrapiType] returns has the keys [type] and [args] only, so the
    [...rest] spread adds nothing. *)
Definition toColumn (column : RawColumn) : Column.t :=
  let st := toStrapiType column in
  {| Column.type := st_type st;
     Column.args := match st_args st with Some a => a | None => [] end;
     Column.defaultTo := surfacedDefault column;
     Column.name := column_name column;
     Column.notNullable := String.eqb (is_nullable column) "NO";
     Column.unsigned := false |}.

(** The rows that the query of [getColumns] yields. *)
Definition selectColumns (db : Database) (tableName : string) : list RawColumn :=
  map selected
    (filter (fun r => table_schema r = getDatabaseSchema db /\ table_name r = tableName)
            (information_schema_columns db)).

Definition getColumns (db : Database) (tableName : string) : list Column.t :=
  map toColumn (selectColumns db tableName).

(** *** The regular expression [/\((.*?)\)/] *)

(** [.] does not match a line terminator. *)
Definition is_line_terminator (c : ascii) : bool :=
  Ascii.eqb c "010" || Ascii.eqb c "013".

(** After an opening parenthesis: the text before the first closing
    parenthesis, unless a line terminator comes first. *)
Fixpoint lazy_group (s : string) : option string :=
  match s with
  | EmptyString => None
  | String c t =>
      if Ascii.eqb c ")" then Some EmptyString
      else if is_line_terminator c then None
      else option_map (String c) (lazy_group t)
  end.

(** The capture group of the leftmost match. *)
Fixpoint first_group (s : string) : option string :=
  match s with
  | EmptyString => None
  | String c t =>
      if Ascii.eqb c "(" then
        match lazy_group t with
        | Some g => Some g
        | None => first_group t
        end
      else first_group t
  end.

Definition parseIndexColumns (indexDef : string) : list string :=
  match first_group indexDef with
  | Some g => map Js.trim (Js.split "," g)
  | None => []
  end.

(** A row of the [getIndexes] query: [select('indexname', 'indexdef')]. *)
Record IndexRow := {
  row_indexname : string;
  row_indexdef : string
}.

(** The row object read through the [RawIndex] interface: none of the
    properties of [RawIndex] is a selected column. *)
Definition asRawIndex (index : IndexRow) : RawIndex :=
  {| indexrelid := None; index_name := None; index_column_name := None;
     is_unique := None; is_primary := None |}.

Definition getIndexes (db : Database) (tableName : string) : list Index.t :=
  let indexes :=
    map (fun r => {| row_indexname := indexname r; row_indexdef := indexdef r |})
      (filter (fun r => schemaname r = getDatabaseSchema db /\ tablename r = tableName)
              (pg_indexes db)) in
  map (fun index =>
         {| Index.name := row_indexname index;
            Index.columns := parseIndexColumns (row_indexdef index);
            Index.type := getIndexType (asRawIndex index) |})
      indexes.

(** The root type name that the [switch] of [toStrapiType] inspects. *)
Definition rootType (column : RawColumn) : option string :=
  rootTypeOf (Js.toLowerCase (data_type column)).

(** The [case] labels of [toStrapiType]. *)
Definition caseLabels : list string :=
  ["integer"; "text"; "boolean"; "character"; "timestamp"; "date"; "time";
   "numeric"; "real"; "double"; "bigint"; "jsonb"].

(** The semantic vocabulary as the specification lists it. *)
Definition specVocabulary : list string :=
  ["integer"; "text"; "boolean"; "string"; "datetime"; "date"; "time";
   "decimal"; "double"; "bigInteger"; "json"; "specificType"].

(** The types that [toStrapiType] returns. *)
Definition strapiTypes : list string :=
  ["integer"; "text"; "boolean"; "string"; "datetime"; "date"; "time";
   "decimal"; "double"; "bigInteger"; "jsonb"; "specificType"].

(** The index kinds as the specification lists them. *)
Definition specIndexKinds : list (option string) :=
  [Some "primary"; Some "unique"; Some "secondary"].

(** The kinds that [getIndexType] returns; [None] is [undefined]. *)
Definition indexTypes : list (option string) :=
  [Some "primary"; Some "unique"; None].

(** The default expression is a sequence-generator call. *)
Definition isSequenceDefault (d : option string) : bool :=
  match d with
  | Some s => Js.includes "nextval(" s
  | None => false
  end.

(** *** The other catalog relations

    [getTables] and [getForeignKeys] read four more relations of
    [information_schema]; again only the columns that the queries mention
    are kept. *)

Record CatalogTable := {
  t_table_schema : string;
  t_table_name : string;
  t_table_type : string
}.

Record TableConstraint := {
  tc_table_schema : string;
  tc_table_name : string;
  tc_constraint_type : string;
  tc_constraint_name : string
}.

Record KeyColumnUsage := {
  kcu_constraint_name : string;
  kcu_table_schema : string;
  kcu_table_name : string;
  kcu_column_name : string
}.

Record ReferentialConstraint := {
  rc_constraint_name : string;
  rc_constraint_schema : string;
  update_rule : string;
  delete_rule : string;
  unique_constraint_name : option string   (* [None] is SQL NULL *)
}.

Record InformationSchema := {
  tables : list CatalogTable;
  table_constraints : list TableConstraint;
  key_column_usage : list KeyColumnUsage;
  referential_constraints : list ReferentialConstraint
}.

(** The argument of [whereNotIn] in [getTables]. *)
Definition reservedTables : list string := ["geometry_columns"; "spatial_ref_sys"].

Definition getTables (db : Database) (info : InformationSchema) : list string :=
  let tables :=
    filter (fun r => t_table_schema r = getDatabaseSchema db
                     /\ t_table_type r = "BASE TABLE"
                     /\ t_table_name r ∉ reservedTables)
           (tables info) in
  map t_table_name tables.

(** What a call can throw besides a failure of the connection. *)
Inductive Thrown :=
| TypeError.   (* reading a property of [undefined] *)

(** [Promise.all(items.map(f))]: the results in order, or the rejection. *)
Fixpoint promiseAll {A B} (f : A -> Thrown + B) (items : list A) : Thrown + list B :=
  match items with
  | [] => inr []
  | x :: rest =>
      match f x, promiseAll f rest with
      | inr y, inr ys => inr (y :: ys)
      | inl e, _ => inl e
      | _, inl e => inl e
      end
  end.

Definition getForeignKeyColumns (db : Database) (info : InformationSchema)
    (constraintName tableName : string) : list string :=
  let result :=
    filter (fun r => kcu_constraint_name r = constraintName
                     /\ kcu_table_schema r = getDatabaseSchema db
                     /\ kcu_table_name r = tableName)
           (key_column_usage info) in
  map kcu_column_name result.

(** What [getForeignKeyReferences] returns. *)
Record References := {
  ref_onUpdate : string;
  ref_onDelete : string;
  ref_referencedTable : option string;
  ref_referencedColumns : list string
}.

(** [const [references] = ...] binds [undefined] when the query has no
    row, and the next read of [references.unique_constraint_name] throws.
    A null [unique_constraint_name] makes the second query ask for a null
    [constraint_name], which no row of [key_column_usage] has. *)
Definition getForeignKeyReferences (db : Database) (info : InformationSchema)
    (constraintName : string) : Thrown + References :=
  match filter (fun r => rc_constraint_name r = constraintName
                         /\ rc_constraint_schema r = getDatabaseSchema db)
               (referential_constraints info) with
  | [] => inl TypeError
  | references :: _ =>
      let refColumns :=
        filter (fun r => unique_constraint_name references = Some (kcu_constraint_name r)
                         /\ kcu_table_schema r = getDatabaseSchema db)
               (key_column_usage info) in
      inr {| ref_onUpdate := update_rule references;
             ref_onDelete := delete_rule references;
             ref_referencedTable :=
               match refColumns with
               | [] => None
               | col :: _ =>
                   if Js.truthy_string (Some (kcu_table_name col))
                   then Some (kcu_table_name col) else None
               end;
             ref_referencedColumns := map kcu_column_name refColumns |}
  end.

(** The names of the FOREIGN KEY constraints of a table. *)
Definition foreignKeyConstraints (db : Database) (info : InformationSchema)
    (tableName : string) : list string :=
  map tc_constraint_name
    (filter (fun r => tc_table_schema r = getDatabaseSchema db
                      /\ tc_table_name r = tableName
                      /\ tc_constraint_type r = "FOREIGN KEY")
            (table_constraints info)).

Definition getForeignKeys (db : Database) (info : InformationSchema)
    (tableName : string) : Thrown + list ForeignKey.t :=
  promiseAll
    (fun constraint_name =>
       let columns := getForeignKeyColumns db info constraint_name tableName in
       match getForeignKeyReferences db info constraint_name with
       | inl e => inl e
       | inr references =>
           inr {| ForeignKey.name := constraint_name;
                  ForeignKey.columns := columns;
                  ForeignKey.referencedTable := ref_referencedTable references;
                  ForeignKey.referencedColumns := ref_referencedColumns references;
                  ForeignKey.onUpdate := ref_onUpdate references;
                  ForeignKey.onDelete := ref_onDelete references |}
       end)
    (foreignKeyConstraints db info tableName).

(** The text after the root: nothing, or something that starts with a
    delimiter. *)
Definition ends_root (rest : string) : Prop :=
  rest = "" \/ exists c rest', rest = String c rest' /\ is_delim c = true.

(** [cols.join(', ')], the way PostgreSQL prints the column list of an
    index definition. *)
Fixpoint joinColumns (cols : list string) : string :=
  match cols with
  | [] => EmptyString
  | [c] => c
  | c :: rest => c ++ ", " ++ joinColumns rest
  end.

(** A character of a plain identifier: no white space, comma or
    parenthesis. *)
Definition is_plain (c : ascii) : bool :=
  negb (Js.is_space c) && negb (Ascii.eqb c ",")
  && negb (Ascii.eqb c "(") && negb (Ascii.eqb c ")").

Fixpoint all_chars (p : ascii -> bool) (s : string) : bool :=
  match s with
  | EmptyString => true
  | String c t => p c && all_chars p t
  end.

(** The character is not [sep]. *)
Definition is_not (sep c : ascii) : bool := negb (Ascii.eqb c sep).

(** A character that the capture group of [parseIndexColumns] can hold. *)
Definition in_group (c : ascii) : bool :=
  is_not ")" c && negb (is_line_terminator c).

End Inspector.

(** ** Page guards ([PageHelpers.tsx]) *)

Module PageHelpers.

(** [subject] of a permission: a string, [null], or left out. *)
Inductive Subject :=
| subject_undefined
| subject_null
| subject_of (s : string).

#[global] Instance Subject_eq_dec : EqDecision Subject.
Proof. solve_decision. Defined.

(** A permission, as held by the user or as required by a page.
    [conditions] is [None] when the property is not an array. *)
Record Permission := {
  action : string;
  subject : Subject;
  conditions : option (list string)
}.

(** The body of a permission check request. *)
Record PermissionToCheck := {
  check_action : string;
  check_subject : Subject
}.

(** What the [useCheckPermissionsQuery] hook hands back. *)
Record QueryState (ApiError : Type) := {
  isLoading : bool;
  error : option ApiError;
  data : option (list bool)       (* [None] is [undefined] *)
}.
Arguments isLoading {ApiError}.
Arguments error {ApiError}.
Arguments data {ApiError}.

Record Notification := {
  type : string;
  message : string
}.

(** What the component returns. *)
Inductive Rendered :=
| Loading
| Error
| NoPermissions
| Children (permissions : list Permission).

(** [Array.prototype.findIndex]: -1 when no element passes. *)
Fixpoint findIndex {A} (p : A -> bool) (l : list A) : Z :=
  match l with
  | [] => -1
  | x :: l' => if p x then 0 else
                 let i := findIndex p l' in
                 if i =? -1 then -1 else i + 1
  end.

(** [perm.action === permission.action && perm.subject === permission.subject] *)
Definition samePermission (perm permission : Permission) : bool :=
  String.eqb (action perm) (action permission)
  && bool_decide (subject perm = subject permission).

Definition hasConditions (perm : Permission) : bool :=
  match conditions perm with
  | Some c => (0 <? Z.of_nat (length c))
  | None => false
  end.

Section Protect.

Context {ApiError : Type}.
(** [useRBACProvider().allPermissions] *)
Variable allPermissions : list Permission.
(** The hook of [services/auth], applied to the request and to [skip]. *)
Variable useCheckPermissionsQuery :
  list PermissionToCheck -> bool -> QueryState ApiError.
(** [useAPIErrorHandler()._unstableFormatAPIError] *)
Variable formatAPIError : ApiError -> string.

Definition matchingPermissions (permissions : list Permission) : list Permission :=
  List.filter
    (fun permission =>
       0 <=? findIndex (fun perm => samePermission perm permission) permissions)
    allPermissions.

Definition shouldCheckConditions (permissions : list Permission) : bool :=
  existsb hasConditions (matchingPermissions permissions).

Definition checkQuery (permissions : list Permission) : QueryState ApiError :=
  useCheckPermissionsQuery
    (map (fun perm => {| check_action := action perm; check_subject := subject perm |})
         (matchingPermissions permissions))
    (negb (shouldCheckConditions permissions)).

Definition canAccess (permissions : list Permission) : bool :=
  if shouldCheckConditions permissions then
    let data := default [] (data (checkQuery permissions)) in
    negb (existsb negb data)
  else 0 <? Z.of_nat (length (matchingPermissions permissions)).

(** The notifications raised by the effect of one render. *)
Definition notifications (permissions : list Permission) : list Notification :=
  match error (checkQuery permissions) with
  | Some e => [{| type := "warning"; message := formatAPIError e |}]
  | None => []
  end.

(** One render of [Protect]; the [permissions] prop defaults to []. *)
Definition Protect (permissionsProp : option (list Permission)) : Rendered * list Notification :=
  let permissions := default [] permissionsProp in
  let q := checkQuery permissions in
  let rendered :=
    if isLoading q then Loading
    else if bool_decide (is_Some (error q)) then Error
    else if negb (canAccess permissions) then NoPermissions
    else Children (matchingPermissions permissions) in
  (rendered, notifications permissions).

End Protect.

(** The hook leaves a skipped query uninitialized: no request is in
    flight and there is no error. *)
Definition honoursSkip {ApiError} (hook : list PermissionToCheck -> bool -> QueryState ApiError) : Prop :=
  forall args, isLoading (hook args true) = false /\ error (hook args true) = None.

(** A required permission is granted when the user holds a permission
    with the same action and subject. *)
Definition holds (allPermissions : list Permission) (required : Permission) : Prop :=
  exists p, p ∈ allPermissions /\ action p = action required /\ subject p = subject required.

End PageHelpers.

(** ** Document service: the delete path *)

Module DocumentService.

(** Modelled from the spec: the publication status of a version row
    (section 3); the content-type schema is not under src/. *)
Inductive Status := draft | published.

#[global] Instance Status_eq_dec : EqDecision Status.
Proof. solve_decision. Defined.

(** A row of a component or dynamic-zone table is addressed by the
    table name and the row id. *)
Abbreviation ChildKey := (string * Z)%type.

(** Modelled from the spec: the DocumentVersion row of section 3,
    [{ id, documentId, locale, status, fields, componentRefs,
    dynamicZoneRefs }]; the document table itself is not under src/.
    The [id] is the key of the row in [versions] below. *)
Record DocumentVersion := {
  documentId : string;
  locale : string;
  status : Status;
  fields : list (string * string);
  componentRefs : list ChildKey;
  dynamicZoneRefs : list ChildKey
}.

(** Modelled from the spec: the relational store behind the document
    service (section 6, storage collaborator): the document table keyed
    by row id and the component and dynamic-zone tables keyed by table
    name and row id. *)
Record Store := {
  versions : gmap Z DocumentVersion;
  children : gmap ChildKey (list (string * string))
}.

(** Modelled from the spec: [options?: { locale?, status? }] of the
    delete entry point (section 4.2). *)
Record Options := {
  opt_locale : option string;
  opt_status : option Status
}.

Definition noOptions : Options := {| opt_locale := None; opt_status := None |}.

(** [{ locale: l }] *)
Definition localeOnly (l : string) : Options :=
  {| opt_locale := Some l; opt_status := None |}.

(** [{ status: s }], with or without a locale. *)
Definition statusOnly (l : option string) (s : Status) : Options :=
  {| opt_locale := l; opt_status := Some s |}.

(** Modelled from the spec: the error kinds that a document operation
    reports (section 7). *)
Inductive DocumentError :=
| ValidationError (message : string)
| NotFoundError.

(** Modelled from the spec: the result of a call, which is the error
    reported to the caller, if any, and the store after the transaction
    (sections 5 and 7). *)
Record Outcome := {
  reported : option DocumentError;
  after : Store
}.

(** Modelled from the spec: the child rows that a version owns (section
    3), components first. *)
Definition ownedRefs (v : DocumentVersion) : list ChildKey :=
  componentRefs v ++ dynamicZoneRefs v.

(** Modelled from the spec: the versions that a delete call targets
    (section 4.2): those of the document, narrowed to the locale and to
    the status when the option is given. *)
Definition inScope (docId : string) (opts : Options) (v : DocumentVersion) : Prop :=
  documentId v = docId
  /\ from_option (fun l => locale v = l) True (opt_locale opts)
  /\ from_option (fun s => status v = s) True (opt_status opts).

#[global] Instance inScope_dec docId opts v : Decision (inScope docId opts v).
Proof.
  unfold inScope. destruct (opt_locale opts), (opt_status opts); simpl; apply _.
Defined.

(** Modelled from the spec: the cascade rule of section 4.2.  Deleting a
    version row first deletes the child rows it owns, then the row. *)
Definition deleteVersion (st : Store) (target : Z * DocumentVersion) : Store :=
  let childrenLeft := foldr base.delete (children st) (ownedRefs target.2) in
  {| versions := base.delete target.1 (versions st); children := childrenLeft |}.

(** Modelled from the spec: the version rows that a call resolves
    before it deletes anything (section 4.2), with their ids. *)
Definition targets (docId : string) (opts : Options) (st : Store)
  : list (Z * DocumentVersion) :=
  map_to_list (filter (fun iv => inScope docId opts iv.2) (versions st)).

(** Modelled from the spec: [delete(documentId, options?)] of section
    4.2 with the error kinds of section 7; the function is not under
    src/, only its tests are.  A [status: 'draft'] call is rejected before
    anything is touched; a call that targets no row reports
    [NotFoundError] and changes nothing; otherwise every targeted version
    is deleted with its children. *)
Definition delete (docId : string) (opts : Options) (st : Store) : Outcome :=
  match opt_status opts with
  | Some draft =>
      {| reported := Some (ValidationError "Cannot delete a draft document");
         after := st |}
  | _ =>
      match targets docId opts st with
      | [] => {| reported := Some NotFoundError; after := st |}
      | ts => {| reported := None; after := foldl deleteVersion st ts |}
      end
  end.

(** Modelled from the spec: exclusive ownership (section 3), no child
    row is owned by two versions. *)
Definition exclusive (st : Store) : Prop :=
  forall i j v w k,
    versions st !! i = Some v -> versions st !! j = Some w ->
    k ∈ ownedRefs v -> k ∈ ownedRefs w -> i = j.

End DocumentService.

(** ** Sample data *)

Module Samples.

Import Inspector DocumentService.

Definition rawColumn (name ty : string) (dflt : option string) : RawColumn :=
  {| data_type := ty; column_name := name; character_maximum_length := None;
     column_default := dflt; is_nullable := "NO" |}.

Definition inPublic (table : string) (c : RawColumn) : CatalogColumn :=
  {| table_schema := "public"; table_name := table; selected := c |}.

Definition idColumn : RawColumn :=
  rawColumn "id" "integer" (Some "nextval('articles_id_seq'::regclass)").
Definition priceColumn : RawColumn := rawColumn "price" "NUMERIC(12,4)" (Some "0").
Definition createdAtColumn : RawColumn :=
  rawColumn "created_at" "timestamp without time zone" None.

(** A catalog with one table, [articles]. *)
Definition catalog : Database :=
  {| getSchemaName := None;
     information_schema_columns :=
       [inPublic "articles" idColumn;
        inPublic "articles" priceColumn;
        inPublic "articles" createdAtColumn;
        inPublic "articles" (rawColumn "meta" "jsonb" None);
        inPublic "articles" (rawColumn "document_id" "uuid" None)];
     pg_indexes :=
       [{| schemaname := "public"; tablename := "articles";
           indexname := "articles_title_idx";
           indexdef := "CREATE INDEX articles_title_idx ON public.articles USING btree (title)" |}] |}.

(** A row that carries both catalog flags. *)
Definition primaryAndUnique : RawIndex :=
  {| indexrelid := Some "16402"; index_name := Some "articles_pkey";
     index_column_name := Some "id"; is_unique := Some true; is_primary := Some true |}.

Definition article (doc loc : string) (s : Status) (title : string)
    (comp dz : list ChildKey) : DocumentVersion :=
  {| documentId := doc; locale := loc; status := s;
     fields := [("title", title)];
     componentRefs := comp; dynamicZoneRefs := dz |}.

(** Two documents; the first one is localized and published in English. *)
Definition articles : Store :=
  {| versions :=
       list_to_map
         [(1, article "Article1" "en" draft "Article1-Draft-EN"
                [("components_article_comps", 1)] [("components_article_dz_comps", 1)]);
          (2, article "Article1" "en" published "Article1-Published-EN"
                [("components_article_comps", 2)] [("components_article_dz_comps", 2)]);
          (3, article "Article1" "nl" draft "Article1-Draft-NL"
                [("components_article_comps", 3)] []);
          (4, article "Article2" "en" draft "Article2-Draft-EN" [] []);
          (5, article "Article2" "en" published "Article2-Published-EN" [] [])];
     children :=
       list_to_map
         [(("components_article_comps", 1), [("text", "comp-1")]);
          (("components_article_dz_comps", 1), [("name", "dz-comp-1")]);
          (("components_article_comps", 2), [("text", "comp-1")]);
          (("components_article_dz_comps", 2), [("name", "dz-comp-1")]);
          (("components_article_comps", 3), [("text", "comp-nl")])] |}.

(** The other catalog relations of the [articles] table: one foreign key
    to [authors]. *)
Definition relations : InformationSchema :=
  {| tables :=
       [{| t_table_schema := "public"; t_table_name := "articles";
           t_table_type := "BASE TABLE" |};
        {| t_table_schema := "public"; t_table_name := "spatial_ref_sys";
           t_table_type := "BASE TABLE" |};
        {| t_table_schema := "public"; t_table_name := "recent_articles";
           t_table_type := "VIEW" |}];
     table_constraints :=
       [{| tc_table_schema := "public"; tc_table_name := "articles";
           tc_constraint_type := "PRIMARY KEY"; tc_constraint_name := "articles_pkey" |};
        {| tc_table_schema := "public"; tc_table_name := "articles";
           tc_constraint_type := "FOREIGN KEY";
           tc_constraint_name := "articles_author_fk" |}];
     key_column_usage :=
       [{| kcu_constraint_name := "articles_author_fk"; kcu_table_schema := "public";
           kcu_table_name := "articles"; kcu_column_name := "author_id" |};
        {| kcu_constraint_name := "authors_pkey"; kcu_table_schema := "public";
           kcu_table_name := "authors"; kcu_column_name := "id" |}];
     referential_constraints :=
       [{| rc_constraint_name := "articles_author_fk"; rc_constraint_schema := "public";
           update_rule := "NO ACTION"; delete_rule := "CASCADE";
           unique_constraint_name := Some "authors_pkey" |}] |}.

(** The same relations without the referential rule of the foreign key. *)
Definition danglingRelations : InformationSchema :=
  {| tables := tables relations;
     table_constraints := table_constraints relations;
     key_column_usage := key_column_usage relations;
     referential_constraints := [] |}.

(** The foreign key of [articles] as [getForeignKeys] reports it. *)
Definition authorForeignKey : ForeignKey.t :=
  {| ForeignKey.name := "articles_author_fk";
     ForeignKey.columns := ["author_id"];
     ForeignKey.referencedTable := Some "authors";
     ForeignKey.referencedColumns := ["id"];
     ForeignKey.onUpdate := "NO ACTION";
     ForeignKey.onDelete := "CASCADE" |}.

(** The catalog read with another schema name configured. *)
Definition withSchema (s : option string) (db : Database) : Database :=
  {| getSchemaName := s;
     information_schema_columns := information_schema_columns db;
     pg_indexes := pg_indexes db |}.

(** Two admin permissions without conditions. *)
Definition readRoles : PageHelpers.Permission :=
  {| PageHelpers.action := "admin::roles.read";
     PageHelpers.subject := PageHelpers.subject_null;
     PageHelpers.conditions := Some [] |}.

Definition updateRoles : PageHelpers.Permission :=
  {| PageHelpers.action := "admin::roles.update";
     PageHelpers.subject := PageHelpers.subject_null;
     PageHelpers.conditions := Some [] |}.

(** A hook whose server grants every permission it is asked about. *)
Definition grantingHook (args : list PageHelpers.PermissionToCheck) (skip : bool)
  : PageHelpers.QueryState string :=
  if skip then
    {| PageHelpers.isLoading := false; PageHelpers.error := None;
       PageHelpers.data := None |}
  else
    {| PageHelpers.isLoading := false; PageHelpers.error := None;
       PageHelpers.data := Some (map (fun _ => true) args) |}.

(** A permission that is held under a condition. *)
Definition readOwnRoles : PageHelpers.Permission :=
  {| PageHelpers.action := "admin::roles.read";
     PageHelpers.subject := PageHelpers.subject_null;
     PageHelpers.conditions := Some ["admin::is-creator"] |}.

(** A hook whose server denies every permission it is asked about. *)
Definition denyingHook (args : list PageHelpers.PermissionToCheck) (skip : bool)
  : PageHelpers.QueryState string :=
  if skip then
    {| PageHelpers.isLoading := false; PageHelpers.error := None;
       PageHelpers.data := None |}
  else
    {| PageHelpers.isLoading := false; PageHelpers.error := None;
       PageHelpers.data := Some (map (fun _ => false) args) |}.

(** A hook whose request fails. *)
Definition failingHook (args : list PageHelpers.PermissionToCheck) (skip : bool)
  : PageHelpers.QueryState string :=
  if skip then
    {| PageHelpers.isLoading := false; PageHelpers.error := None;
       PageHelpers.data := None |}
  else
    {| PageHelpers.isLoading := false; PageHelpers.error := Some "Forbidden";
       PageHelpers.data := None |}.

End Samples.

(** ** Properties of the schema inspector *)

(** Membership in a list that is written out. *)
Ltac in_list := apply list_elem_of_In; simpl; auto 20.

(** A hypothesis of membership in a written-out list, case by case. *)
Ltac cases_of H := apply list_elem_of_In in H; simpl in H; intuition (subst; try discriminate).

Module InspectorProps.

Import Inspector.

Lemma is_case_true r label : is_case r label = true -> r = Some label.
Proof.
  destruct r as [s|]; simpl; [|discriminate].
  intros H. apply String.eqb_eq in H. by subst.
Qed.

Lemma is_case_false r label : is_case r label = false -> r <> Some label.
Proof.
  destruct r as [s|]; simpl; [|discriminate].
  intros H [= ->]. by rewrite String.eqb_refl in H.
Qed.

Lemma is_case_other a b : a <> b -> is_case (Some a) b = false.
Proof. intros H. simpl. by apply String.eqb_neq. Qed.

(** Off the twelve labels the [switch] takes its [default] branch. *)
Lemma toStrapiType_default column :
  (forall label, label ∈ caseLabels -> rootType column <> Some label) ->
  toStrapiType column =
    {| st_type := "specificType"; st_args := Some [Js.str (data_type column)] |}.
Proof.
  intros Hun. unfold toStrapiType. fold (rootType column).
  assert (Hf : forall label, label ∈ caseLabels -> is_case (rootType column) label = false).
  { intros label Hin. destruct (is_case (rootType column) label) eqn:E; [|done].
    apply is_case_true in E. by destruct (Hun label Hin). }
  rewrite !Hf; [done | unfold caseLabels; in_list ..].
Qed.

(** The empty string is falsy but holds no [nextval(] either. *)
Lemma surfacedDefault_spec column :
  surfacedDefault column =
    if isSequenceDefault (column_default column) then None else column_default column.
Proof.
  unfold surfacedDefault, isSequenceDefault.
  destruct (column_default column) as [[|c s]|]; done.
Qed.

(** C5 (counterexample): a [jsonb] column gets the type [jsonb], which is
    not in the vocabulary that the specification lists. *)
Lemma toStrapiType_jsonb_outside_spec_vocabulary :
  st_type (toStrapiType (Samples.rawColumn "meta" "jsonb" None)) = "jsonb" /\
  st_type (toStrapiType (Samples.rawColumn "meta" "jsonb" None)) ∉ specVocabulary.
Proof.
  split; [reflexivity|]. intros H. vm_compute in H. cases_of H.
Qed.

(** C5 (amended): [toStrapiType] is a total function whose type is always
    one of integer, text, boolean, string, datetime, date, time, decimal,
    double, bigInteger, jsonb, specificType; a column whose root type is
    none of the case labels gets [specificType] with the native type
    string, unchanged, as its only argument. *)
Theorem toStrapiType_vocabulary (column : RawColumn) :
  st_type (toStrapiType column) ∈ strapiTypes /\
  ((forall label, label ∈ caseLabels -> rootType column <> Some label) ->
   toStrapiType column =
     {| st_type := "specificType"; st_args := Some [Js.str (data_type column)] |}).
Proof.
  split; [|apply toStrapiType_default].
  unfold toStrapiType, strapiTypes.
  repeat match goal with
         | |- context [if ?b then _ else _] => destruct b
         end; simpl; in_list.
Qed.

Lemma toStrapiType_vocabulary_witness :
  toStrapiType (Samples.rawColumn "document_id" "uuid" None) =
    {| st_type := "specificType"; st_args := Some [Js.str "uuid"] |}.
Proof.
  apply (proj2 (toStrapiType_vocabulary (Samples.rawColumn "document_id" "uuid" None))).
  intros label Hin. unfold caseLabels in Hin. cases_of Hin.
Defined.

Lemma getIndexType_kinds index : getIndexType index ∈ indexTypes.
Proof.
  unfold getIndexType, indexTypes.
  destruct (Js.truthy_flag (is_primary index)), (Js.truthy_flag (is_unique index));
    in_list.
Qed.

(** The query of [getIndexes] selects [indexname] and [indexdef] only, so
    the flags that [getIndexType] reads are never there. *)
Lemma getIndexes_type_undefined db tableName idx :
  idx ∈ getIndexes db tableName -> Index.type idx = None.
Proof.
  unfold getIndexes. intros Hin. apply list_elem_of_In, in_map_iff in Hin.
  destruct Hin as (row & <- & _). reflexivity.
Qed.

(** C6 (counterexample): for a plain index, neither primary nor unique,
    [getIndexes] leaves the kind undefined; it is not [secondary]. *)
Lemma getIndexes_plain_index_has_no_kind :
  getIndexes Samples.catalog "articles" =
    [{| Index.name := "articles_title_idx"; Index.columns := ["title"];
        Index.type := None |}] /\
  ~ (forall idx, idx ∈ getIndexes Samples.catalog "articles" ->
                 Index.type idx ∈ specIndexKinds).
Proof.
  assert (Heq : getIndexes Samples.catalog "articles" =
    [{| Index.name := "articles_title_idx"; Index.columns := ["title"];
        Index.type := None |}]) by (vm_compute; reflexivity).
  split; [exact Heq|]. intros H.
  specialize (H {| Index.name := "articles_title_idx"; Index.columns := ["title"];
                   Index.type := None |}).
  rewrite Heq in H. specialize (H (list_elem_of_here _ _)).
  simpl in H. unfold specIndexKinds in H. cases_of H.
Qed.

(** C6 (amended): the kind of every index that [getIndexes] returns is
    [primary], [unique] or undefined, never [secondary]; and
    [getIndexType] answers [primary] whenever the primary flag is set,
    whatever the unique flag. *)
Theorem getIndexes_kind (db : Database) (tableName : string) :
  (forall idx, idx ∈ getIndexes db tableName -> Index.type idx ∈ indexTypes) /\
  (forall index, is_primary index = Some true -> getIndexType index = Some "primary").
Proof.
  split.
  - unfold getIndexes. intros idx Hin. apply list_elem_of_In, in_map_iff in Hin.
    destruct Hin as (row & <- & _). simpl. apply getIndexType_kinds.
  - intros index Hp. unfold getIndexType. by rewrite Hp.
Qed.

Lemma getIndexes_kind_witness :
  Index.type {| Index.name := "articles_title_idx"; Index.columns := ["title"];
                Index.type := None |} ∈ indexTypes /\
  getIndexType Samples.primaryAndUnique = Some "primary".
Proof.
  split.
  - apply (proj1 (getIndexes_kind Samples.catalog "articles")).
    apply list_elem_of_In. vm_compute. auto.
  - apply (proj2 (getIndexes_kind Samples.catalog "articles")). reflexivity.
Defined.

Lemma append_cons c s rest : String c s ++ rest = String c (s ++ rest).
Proof. reflexivity. Qed.

Lemma startsWith_prefix needle hay :
  Js.startsWith needle hay = true <-> exists post, hay = needle ++ post.
Proof.
  revert hay. induction needle as [|a needle IH]; intros hay.
  - split; [|done]. intros _. by exists hay.
  - destruct hay as [|b hay]; simpl.
    + split; [done|]. intros (post & Hp). by rewrite append_cons in Hp.
    + destruct (Ascii.eqb a b) eqn:E.
      * apply Ascii.eqb_eq in E as ->. rewrite IH. split.
        -- intros (post & ->). by exists post.
        -- intros (post & Hp). rewrite append_cons in Hp.
           injection Hp as ->. by exists post.
      * apply Ascii.eqb_neq in E. split; [done|]. intros (post & Hp).
        rewrite append_cons in Hp. injection Hp as -> _. done.
Qed.

Lemma includes_unfold needle hay :
  Js.includes needle hay =
    if Js.startsWith needle hay then true
    else match hay with
         | EmptyString => false
         | String _ h => Js.includes needle h
         end.
Proof. by destruct hay. Qed.

(** [includes] answers true exactly for the strings that hold the needle
    somewhere. *)
Lemma includes_substring needle hay :
  Js.includes needle hay = true <-> exists pre post, hay = pre ++ needle ++ post.
Proof.
  split.
  - induction hay as [|c hay IH]; rewrite includes_unfold.
    + destruct (Js.startsWith needle "") eqn:E; [|done]. intros _.
      apply startsWith_prefix in E as (post & ->). by exists "", post.
    + destruct (Js.startsWith needle (String c hay)) eqn:E.
      * intros _. apply startsWith_prefix in E as (post & ->). by exists "", post.
      * intros (pre & post & ->)%IH. exists (String c pre), post.
        by rewrite append_cons.
  - intros (pre & post & ->). induction pre as [|c pre IH].
    + rewrite includes_unfold.
      assert (Js.startsWith needle ("" ++ needle ++ post) = true) as ->; [|done].
      apply startsWith_prefix. by exists post.
    + rewrite append_cons, includes_unfold.
      destruct (Js.startsWith needle _); [done|]. exact IH.
Qed.

(** The default expression of the row holds a call of [nextval]. *)
Lemma surfacedDefault_sequence column pre post :
  column_default column = Some (pre ++ "nextval(" ++ post) ->
  surfacedDefault column = None.
Proof.
  intros Hd. rewrite surfacedDefault_spec, Hd. simpl.
  assert (Js.includes "nextval(" (pre ++ "nextval(" ++ post) = true) as ->; [|done].
  apply includes_substring. by exists pre, post.
Qed.

Lemma surfacedDefault_literal column :
  (forall pre post, column_default column <> Some (pre ++ "nextval(" ++ post)) ->
  surfacedDefault column = column_default column.
Proof.
  intros Hno. rewrite surfacedDefault_spec.
  destruct (column_default column) as [d|]; simpl; [|done].
  destruct (Js.includes "nextval(" d) eqn:E; [|done].
  apply includes_substring in E as (pre & post & ->). by destruct (Hno pre post).
Qed.

(** C7: the columns that [getColumns] returns answer the selected catalog
    rows one by one, and the column built from a row has [defaultTo]
    null when the default expression of the row contains a call
    [nextval(] anywhere, and the default expression of the row, unchanged
    (null and the empty string included), when it contains none. *)
Theorem getColumns_defaultTo (db : Database) (tableName : string) :
  Forall2
    (fun column c =>
       Column.name c = column_name column /\
       (forall pre post,
          column_default column = Some (pre ++ "nextval(" ++ post) ->
          Column.defaultTo c = None) /\
       ((forall pre post,
           column_default column <> Some (pre ++ "nextval(" ++ post)) ->
        Column.defaultTo c = column_default column))
    (selectColumns db tableName) (getColumns db tableName).
Proof.
  unfold getColumns. generalize (selectColumns db tableName). intros rows.
  induction rows as [|column rows IH]; simpl; constructor; [|exact IH].
  split; [done|]. split.
  - intros pre post Hd. simpl. by apply (surfacedDefault_sequence column pre post).
  - intros Hno. simpl. by apply surfacedDefault_literal.
Qed.

Lemma getColumns_defaultTo_witness :
  Column.defaultTo (toColumn Samples.idColumn) = None /\
  Column.defaultTo (toColumn Samples.priceColumn) = Some "0".
Proof.
  pose proof (getColumns_defaultTo Samples.catalog "articles") as H.
  split.
  - destruct (Forall2_lookup_lr _ _ _ 0%nat Samples.idColumn (toColumn Samples.idColumn)
                H eq_refl eq_refl) as (_ & Hseq & _).
    apply (Hseq "" "'articles_id_seq'::regclass)"). reflexivity.
  - destruct (Forall2_lookup_lr _ _ _ 1%nat Samples.priceColumn
                (toColumn Samples.priceColumn) H eq_refl eq_refl) as (_ & _ & Hlit).
    rewrite Hlit; [reflexivity|].
    intros pre post Hd. injection Hd as Hd.
    assert (Hi : Js.includes "nextval(" "0" = true)
      by (apply includes_substring; by exists pre, post).
    discriminate Hi.
Defined.

(** C10: a catalog column whose root type name is [numeric] comes out of
    [getColumns] as [decimal] with the arguments [10, 2], and one whose
    root type name is [timestamp] as [datetime] with the arguments
    [{ useTz: false, precision: 6 }]; nothing else of the row is read for
    them. *)
Theorem getColumns_fixed_args (db : Database) (tableName : string) (column : RawColumn) :
  column ∈ selectColumns db tableName ->
  toColumn column ∈ getColumns db tableName /\
  (rootType column = Some "numeric" ->
   Column.type (toColumn column) = "decimal" /\
   Column.args (toColumn column) = [Js.num 10; Js.num 2]) /\
  (rootType column = Some "timestamp" ->
   Column.type (toColumn column) = "datetime" /\
   Column.args (toColumn column) =
     [Js.obj [("useTz", Js.bool_ false); ("precision", Js.num 6)]]).
Proof.
  intros Hin. split; [|split].
  - unfold getColumns. apply list_elem_of_In, in_map, list_elem_of_In, Hin.
  - intros Hroot. unfold toColumn, toStrapiType. fold (rootType column).
    rewrite Hroot. split; reflexivity.
  - intros Hroot. unfold toColumn, toStrapiType. fold (rootType column).
    rewrite Hroot. split; reflexivity.
Qed.

Lemma getColumns_fixed_args_witness :
  (Column.type (toColumn Samples.priceColumn) = "decimal" /\
   Column.args (toColumn Samples.priceColumn) = [Js.num 10; Js.num 2]) /\
  (Column.type (toColumn Samples.createdAtColumn) = "datetime" /\
   Column.args (toColumn Samples.createdAtColumn) =
     [Js.obj [("useTz", Js.bool_ false); ("precision", Js.num 6)]]).
Proof.
  split.
  - apply (getColumns_fixed_args Samples.catalog "articles" Samples.priceColumn).
    + apply list_elem_of_In. vm_compute. auto.
    + reflexivity.
  - apply (getColumns_fixed_args Samples.catalog "articles" Samples.createdAtColumn).
    + apply list_elem_of_In. vm_compute. auto.
    + reflexivity.
Defined.

End InspectorProps.

(** ** Properties of the page guard *)

Module PageHelpersProps.

Import PageHelpers.

Lemma matchingPermissions_nil allPermissions :
  matchingPermissions allPermissions [] = [].
Proof.
  unfold matchingPermissions. induction allPermissions as [|p l IH]; [done|].
  simpl. exact IH.
Qed.

Lemma findIndex_lower {A} (p : A -> bool) l : -1 <= findIndex p l.
Proof.
  induction l as [|x l IH]; simpl; [lia|].
  destruct (p x); [lia|]. destruct (findIndex p l =? -1); lia.
Qed.

Lemma findIndex_found {A} (p : A -> bool) l :
  0 <= findIndex p l -> exists x, x ∈ l /\ p x = true.
Proof.
  induction l as [|x l IH]; simpl; [lia|].
  destruct (p x) eqn:Hp.
  - intros _. exists x. split; [apply list_elem_of_here | done].
  - pose proof (findIndex_lower p l) as Hlow.
    destruct (findIndex p l =? -1) eqn:Hi; [lia|].
    apply Z.eqb_neq in Hi. intros _.
    destruct IH as (y & Hy & Hpy); [lia|].
    exists y. split; [by apply list_elem_of_further | done].
Qed.

(** Every matching permission is held by the user and answers to one of
    the required permissions. *)
Lemma matchingPermissions_spec allPermissions permissions p :
  p ∈ matchingPermissions allPermissions permissions ->
  p ∈ allPermissions /\
  exists required, required ∈ permissions /\ holds allPermissions required.
Proof.
  unfold matchingPermissions. intros Hin.
  apply list_elem_of_In, filter_In in Hin as [Hall Hidx].
  apply list_elem_of_In in Hall. split; [done|].
  apply Z.leb_le, findIndex_found in Hidx as (required & Hreq & Hsame).
  exists required. split; [done|]. exists p. split; [done|].
  unfold samePermission in Hsame. apply andb_true_iff in Hsame as [Ha Hs].
  apply String.eqb_eq in Ha. apply bool_decide_eq_true in Hs. done.
Qed.

(** What the guard does ensure: when the children are rendered the user
    holds at least one of the required permissions. *)
Lemma Protect_children_some_match {ApiError} allPermissions
    (hook : list PermissionToCheck -> bool -> QueryState ApiError)
    formatAPIError permissionsProp shown :
  (Protect allPermissions hook formatAPIError permissionsProp).1 = Children shown ->
  exists required,
    required ∈ default [] permissionsProp /\ holds allPermissions required.
Proof.
  unfold Protect. simpl. set (permissions := default [] permissionsProp).
  destruct (isLoading _); [done|]. destruct (bool_decide _); [done|].
  destruct (canAccess allPermissions hook permissions) eqn:Hc; [|done].
  intros _. unfold canAccess, shouldCheckConditions in Hc.
  destruct (matchingPermissions allPermissions permissions) as [|p l] eqn:Hm.
  - simpl in Hc. discriminate.
  - apply (matchingPermissions_spec allPermissions permissions p).
    rewrite Hm. apply list_elem_of_here.
Qed.

Lemma grantingHook_honoursSkip : honoursSkip Samples.grantingHook.
Proof. intros args. split; reflexivity. Qed.

(** When the query has failed and is no longer loading, the error page is
    rendered and one warning is raised. *)
Lemma Protect_query_failure {ApiError} allPermissions
    (hook : list PermissionToCheck -> bool -> QueryState ApiError)
    formatAPIError permissionsProp e :
  let q := checkQuery allPermissions hook (default [] permissionsProp) in
  isLoading q = false -> error q = Some e ->
  Protect allPermissions hook formatAPIError permissionsProp =
    (Error, [{| type := "warning"; message := formatAPIError e |}]).
Proof.
  intros q Hl He. unfold Protect, notifications. fold q. rewrite Hl, He.
  by rewrite bool_decide_eq_true_2.
Qed.

(** C8 (the code at the failing input): the page requires two
    permissions, the user holds the first one only, and [Protect] renders
    the children. *)
Theorem Protect_renders_children_with_one_of_two :
  Protect [Samples.readRoles] Samples.grantingHook id
          (Some [Samples.readRoles; Samples.updateRoles])
    = (Children [Samples.readRoles], [])
  /\ ~ holds [Samples.readRoles] Samples.updateRoles.
Proof.
  split; [reflexivity|].
  intros (p & Hin & Hact & _). cases_of Hin.
Qed.

(** C9: with the [permissions] prop empty or left out [Protect] never
    renders its children, whatever permissions the user holds and whatever
    the hook answers; and with a hook that leaves a skipped query
    uninitialized it renders the no-access page and raises no
    notification. *)
Theorem Protect_without_permissions {ApiError} (allPermissions : list Permission)
    (hook : list PermissionToCheck -> bool -> QueryState ApiError)
    (formatAPIError : ApiError -> string) (permissionsProp : option (list Permission)) :
  permissionsProp = None \/ permissionsProp = Some [] ->
  (forall shown,
     (Protect allPermissions hook formatAPIError permissionsProp).1 <> Children shown) /\
  (honoursSkip hook ->
   Protect allPermissions hook formatAPIError permissionsProp = (NoPermissions, [])).
Proof.
  intros Hprop.
  assert (Hp : default [] permissionsProp = []) by (destruct Hprop; by subst).
  unfold Protect, notifications, canAccess, checkQuery, shouldCheckConditions.
  rewrite Hp, matchingPermissions_nil. simpl. split.
  - intros shown. destruct (isLoading (hook [] true)); [done|].
    by destruct (bool_decide (is_Some (error (hook [] true)))).
  - intros Hskip. destruct (Hskip []) as [-> ->]. reflexivity.
Qed.

Lemma Protect_without_permissions_witness :
  (Protect [Samples.readRoles; Samples.updateRoles] Samples.grantingHook id None).1
    <> Children [Samples.readRoles; Samples.updateRoles] /\
  Protect [Samples.readRoles; Samples.updateRoles] Samples.grantingHook id None
    = (NoPermissions, []).
Proof.
  pose proof (Protect_without_permissions [Samples.readRoles; Samples.updateRoles]
                Samples.grantingHook id None (or_introl eq_refl)) as [Hnever Hno].
  split; [apply Hnever|]. apply Hno, grantingHook_honoursSkip.
Defined.

End PageHelpersProps.

(** ** Properties of the document service *)

Module DocumentServiceProps.

Import DocumentService.

Section Cascade.

Implicit Types (st : Store) (ts : list (Z * DocumentVersion)).
Implicit Types (i : Z) (k : ChildKey) (v : DocumentVersion).

(** *** One pass over the targets *)

Lemma version_stays_gone ts st i :
  versions st !! i = None -> versions (foldl deleteVersion st ts) !! i = None.
Proof.
  revert st. induction ts as [|t ts IH]; intros st Hi; simpl; [done|].
  apply IH. simpl. apply lookup_delete_None. by right.
Qed.

Lemma version_deleted ts st t :
  t ∈ ts -> versions (foldl deleteVersion st ts) !! t.1 = None.
Proof.
  revert st. induction ts as [|a ts IH]; intros st Hin; simpl.
  - by apply elem_of_nil in Hin.
  - apply elem_of_cons in Hin as [->|Hin]; [|by apply IH].
    apply version_stays_gone. simpl. apply lookup_delete_eq.
Qed.

Lemma version_kept ts st i :
  (forall t, t ∈ ts -> t.1 <> i) ->
  versions (foldl deleteVersion st ts) !! i = versions st !! i.
Proof.
  revert st. induction ts as [|a ts IH]; intros st Hno; simpl; [done|].
  rewrite IH.
  - simpl. apply lookup_delete_ne, Hno, list_elem_of_here.
  - intros t Ht. apply Hno, list_elem_of_further, Ht.
Qed.

Lemma child_stays_gone ts st k :
  children st !! k = None -> children (foldl deleteVersion st ts) !! k = None.
Proof.
  revert st. induction ts as [|t ts IH]; intros st Hk; simpl; [done|].
  apply IH. simpl.
  destruct (decide (k ∈ ownedRefs t.2)) as [Hin|Hout].
  - by apply lookup_foldr_delete.
  - by rewrite lookup_foldr_delete_not_elem_of.
Qed.

Lemma child_deleted ts st t k :
  t ∈ ts -> k ∈ ownedRefs t.2 ->
  children (foldl deleteVersion st ts) !! k = None.
Proof.
  revert st. induction ts as [|a ts IH]; intros st Hin Hk; simpl.
  - by apply elem_of_nil in Hin.
  - apply elem_of_cons in Hin as [->|Hin]; [|by apply IH].
    apply child_stays_gone. simpl. by apply lookup_foldr_delete.
Qed.

Lemma child_kept ts st k :
  (forall t, t ∈ ts -> k ∉ ownedRefs t.2) ->
  children (foldl deleteVersion st ts) !! k = children st !! k.
Proof.
  revert st. induction ts as [|a ts IH]; intros st Hno; simpl; [done|].
  rewrite IH.
  - simpl. apply lookup_foldr_delete_not_elem_of, Hno, list_elem_of_here.
  - intros t Ht. apply Hno, list_elem_of_further, Ht.
Qed.

(** *** The whole call *)

Lemma elem_of_targets docId opts st i v :
  (i, v) ∈ targets docId opts st <->
  versions st !! i = Some v /\ inScope docId opts v.
Proof.
  unfold targets. rewrite elem_of_map_to_list, map_lookup_filter_Some. done.
Qed.

Lemma after_delete docId opts st :
  opt_status opts <> Some draft ->
  after (delete docId opts st) = foldl deleteVersion st (targets docId opts st).
Proof.
  intros Hs. unfold delete.
  destruct (opt_status opts) as [[]|]; [done| |];
    by destruct (targets docId opts st).
Qed.

Lemma delete_reports_success docId opts st i v :
  opt_status opts <> Some draft ->
  versions st !! i = Some v -> inScope docId opts v ->
  reported (delete docId opts st) = None.
Proof.
  intros Hs Hv Hsc. unfold delete.
  assert (Hin : (i, v) ∈ targets docId opts st) by by apply elem_of_targets.
  destruct (opt_status opts) as [[]|]; [done| |];
    destruct (targets docId opts st); try done; by apply elem_of_nil in Hin.
Qed.

Lemma delete_removes_target docId opts st i v :
  opt_status opts <> Some draft ->
  versions st !! i = Some v -> inScope docId opts v ->
  versions (after (delete docId opts st)) !! i = None.
Proof.
  intros Hs Hv Hsc. rewrite after_delete by done.
  apply (version_deleted _ _ (i, v)), elem_of_targets. done.
Qed.

Lemma delete_keeps_other docId opts st i v :
  opt_status opts <> Some draft ->
  versions st !! i = Some v -> ~ inScope docId opts v ->
  versions (after (delete docId opts st)) !! i = Some v.
Proof.
  intros Hs Hv Hsc. rewrite after_delete by done.
  rewrite version_kept; [done|].
  intros [j w] Hin <-. apply elem_of_targets in Hin as [Hw Hin].
  simpl in Hv. rewrite Hv in Hw. injection Hw as <-. done.
Qed.

Lemma delete_removes_children docId opts st i v k :
  opt_status opts <> Some draft ->
  versions st !! i = Some v -> inScope docId opts v -> k ∈ ownedRefs v ->
  children (after (delete docId opts st)) !! k = None.
Proof.
  intros Hs Hv Hsc Hk. rewrite after_delete by done.
  apply (child_deleted _ _ (i, v)); [|done]. by apply elem_of_targets.
Qed.

Lemma delete_keeps_children docId opts st i v k :
  exclusive st ->
  opt_status opts <> Some draft ->
  versions st !! i = Some v -> ~ inScope docId opts v -> k ∈ ownedRefs v ->
  children (after (delete docId opts st)) !! k = children st !! k.
Proof.
  intros Hex Hs Hv Hsc Hk. rewrite after_delete by done.
  apply child_kept. intros [j w] Hin Hkw. simpl in Hkw.
  apply elem_of_targets in Hin as [Hw Hin].
  assert (i = j) as <- by exact (Hex i j v w k Hv Hw Hk Hkw).
  rewrite Hv in Hw. injection Hw as <-. done.
Qed.

Lemma versions_after_delete docId opts st :
  opt_status opts <> Some draft ->
  versions (after (delete docId opts st)) =
    filter (fun iv => ~ inScope docId opts iv.2) (versions st).
Proof.
  intros Hs. apply map_eq. intros i.
  destruct (versions st !! i) as [v|] eqn:Hv.
  - destruct (decide (inScope docId opts v)) as [Hsc|Hsc].
    + rewrite (delete_removes_target _ _ _ _ v) by done.
      symmetry. apply map_lookup_filter_None. right. intros w Hw.
      rewrite Hv in Hw. injection Hw as <-. simpl. tauto.
    + rewrite (delete_keeps_other _ _ _ _ v) by done.
      symmetry. by apply map_lookup_filter_Some.
  - rewrite after_delete by done. rewrite version_stays_gone by done.
    symmetry. apply map_lookup_filter_None. by left.
Qed.

End Cascade.

Lemma articles_exclusive : exclusive Samples.articles.
Proof.
  intros i j v w k Hv Hw Hkv Hkw.
  apply elem_of_list_to_map_2 in Hv. apply elem_of_list_to_map_2 in Hw.
  cases_of Hv; cases_of Hw; try reflexivity;
    match goal with
    | H : (_, _) = (_, _) |- _ => injection H as <- <-
    end;
    match goal with
    | H : (_, _) = (_, _) |- _ => injection H as <- <-
    end;
    cases_of Hkv; cases_of Hkw.
Qed.

(** C1: after [delete(documentId)] without options no version row of the
    document is left, and every version row that the document had is gone
    together with each component and dynamic-zone row it owned; the call
    reports no error when the document had a row. *)
Theorem delete_whole_document (docId : string) (st : Store) :
  let st' := after (delete docId noOptions st) in
  (forall i v, versions st' !! i = Some v -> documentId v <> docId) /\
  (forall i v, versions st !! i = Some v -> documentId v = docId ->
     reported (delete docId noOptions st) = None /\
     versions st' !! i = None /\
     forall k, k ∈ ownedRefs v -> children st' !! k = None).
Proof.
  assert (Hs : opt_status noOptions <> Some draft) by done.
  assert (Hsc : forall v, documentId v = docId -> inScope docId noOptions v)
    by (intros v Hd; by repeat split).
  simpl. split.
  - intros i v Hv Hd. rewrite versions_after_delete in Hv by done.
    apply map_lookup_filter_Some in Hv as [_ Hn]. apply Hn, Hsc, Hd.
  - intros i v Hv Hd. split; [|split].
    + eapply delete_reports_success; eauto.
    + eapply delete_removes_target; eauto.
    + intros k Hk. eapply delete_removes_children; eauto.
Qed.

Lemma delete_whole_document_witness :
  let st' := after (delete "Article1" noOptions Samples.articles) in
  documentId (Samples.article "Article2" "en" draft "Article2-Draft-EN" [] [])
    <> "Article1" /\
  reported (delete "Article1" noOptions Samples.articles) = None /\
  versions st' !! 1 = None /\
  children st' !! ("components_article_comps", 1) = None.
Proof.
  pose proof (delete_whole_document "Article1" Samples.articles) as [Hleft Hgone].
  split.
  - apply (Hleft 4). vm_compute. reflexivity.
  - destruct (Hgone 1 (Samples.article "Article1" "en" draft "Article1-Draft-EN"
                 [("components_article_comps", 1)] [("components_article_dz_comps", 1)]))
      as (Hr & Hv & Hk); [vm_compute; reflexivity | reflexivity |].
    split; [exact Hr|]. split; [exact Hv|]. apply Hk.
    apply list_elem_of_In. simpl. auto.
Defined.

(** C2: [delete(documentId, { locale?, status: 'draft' })] reports a
    ValidationError with the message "Cannot delete a draft document" and
    leaves the store as it was, for every document id, locale and
    store. *)
Theorem delete_draft_rejected (docId : string) (l : option string) (st : Store) :
  delete docId (statusOnly l draft) st =
    {| reported := Some (ValidationError "Cannot delete a draft document");
       after := st |}.
Proof. reflexivity. Qed.

(** C3: [delete(documentId, { locale?, status: 'published' })] reports no
    error when a published row is in scope, removes every published row
    of the document in the locale scope, leaves every draft row in place
    as it was, and removes no row other than those published rows. *)
Theorem delete_published_keeps_draft (docId : string) (l : option string) (st : Store) :
  let opts := statusOnly l published in
  let st' := after (delete docId opts st) in
  (forall i v, versions st !! i = Some v -> inScope docId opts v ->
     reported (delete docId opts st) = None /\ versions st' !! i = None) /\
  (forall i v, versions st !! i = Some v -> status v = draft ->
     versions st' !! i = Some v) /\
  (forall i v, versions st !! i = Some v -> versions st' !! i <> Some v ->
     documentId v = docId /\ status v = published /\
     from_option (fun l' => locale v = l') True l).
Proof.
  assert (Hs : opt_status (statusOnly l published) <> Some draft) by done.
  simpl. split; [|split].
  - intros i v Hv Hsc. split.
    + eapply delete_reports_success; eauto.
    + eapply delete_removes_target; eauto.
  - intros i v Hv Hd. apply delete_keeps_other; [done..|].
    intros (_ & _ & Hp). simpl in Hp. congruence.
  - intros i v Hv Hgone.
    destruct (decide (inScope docId (statusOnly l published) v)) as [Hsc|Hsc].
    + destruct Hsc as (Hd & Hl & Hp). done.
    + destruct Hgone. by apply delete_keeps_other.
Qed.

Lemma delete_published_keeps_draft_witness :
  let opts := statusOnly None published in
  let st' := after (delete "Article2" opts Samples.articles) in
  (reported (delete "Article2" opts Samples.articles) = None /\
   versions st' !! 5 = None) /\
  versions st' !! 4 =
    Some (Samples.article "Article2" "en" draft "Article2-Draft-EN" [] []).
Proof.
  pose proof (delete_published_keeps_draft "Article2" None Samples.articles)
    as (Hpub & Hdraft & _).
  split.
  - apply (Hpub 5 (Samples.article "Article2" "en" published "Article2-Published-EN" [] [])).
    + vm_compute. reflexivity.
    + repeat split.
  - apply Hdraft; [vm_compute; reflexivity | reflexivity].
Defined.

(** C4: on a store with exclusive ownership,
    [delete(documentId, { locale: L })] removes every version row of the
    document in locale L, draft and published, with the child rows they
    own, and leaves every other version row and each child row it owns as
    it was; the version rows afterwards are exactly the rows that were
    not of the document in locale L. *)
Theorem delete_locale_frame (docId L : string) (st : Store) :
  exclusive st ->
  let st' := after (delete docId (localeOnly L) st) in
  (forall i v, versions st !! i = Some v -> documentId v = docId -> locale v = L ->
     versions st' !! i = None /\
     forall k, k ∈ ownedRefs v -> children st' !! k = None) /\
  (forall i v, versions st !! i = Some v -> ~ (documentId v = docId /\ locale v = L) ->
     versions st' !! i = Some v /\
     forall k, k ∈ ownedRefs v -> children st' !! k = children st !! k) /\
  versions st' =
    filter (fun iv => ~ (documentId iv.2 = docId /\ locale iv.2 = L)) (versions st).
Proof.
  intros Hex.
  assert (Hs : opt_status (localeOnly L) <> Some draft) by done.
  assert (Hsc : forall v, inScope docId (localeOnly L) v <->
                          documentId v = docId /\ locale v = L).
  { intros v. unfold inScope. simpl. tauto. }
  simpl. split; [|split].
  - intros i v Hv Hd Hl. split.
    + eapply delete_removes_target; eauto. by apply Hsc.
    + intros k Hk. eapply delete_removes_children; eauto. by apply Hsc.
  - intros i v Hv Hn. split.
    + apply delete_keeps_other; [done..|]. by rewrite Hsc.
    + intros k Hk. eapply delete_keeps_children; eauto. by rewrite Hsc.
  - rewrite versions_after_delete by done.
    apply map_filter_ext. intros i v _. simpl. by rewrite Hsc.
Qed.

Lemma delete_locale_frame_witness :
  let st' := after (delete "Article1" (localeOnly "nl") Samples.articles) in
  (versions st' !! 3 = None /\
   children st' !! ("components_article_comps", 3) = None) /\
  (versions st' !! 1 = versions Samples.articles !! 1 /\
   children st' !! ("components_article_comps", 1) =
     children Samples.articles !! ("components_article_comps", 1)).
Proof.
  pose proof (delete_locale_frame "Article1" "nl" Samples.articles articles_exclusive)
    as (Hgone & Hkept & _).
  split.
  - destruct (Hgone 3 (Samples.article "Article1" "nl" draft "Article1-Draft-NL"
                 [("components_article_comps", 3)] []))
      as [Hv Hk]; [vm_compute; reflexivity | reflexivity | reflexivity |].
    split; [exact Hv|]. apply Hk. apply list_elem_of_In. simpl. auto.
  - destruct (Hkept 1 (Samples.article "Article1" "en" draft "Article1-Draft-EN"
                 [("components_article_comps", 1)] [("components_article_dz_comps", 1)]))
      as [Hv Hk]; [vm_compute; reflexivity | intros [_ Hl]; discriminate |].
    split; [exact Hv|]. apply Hk. apply list_elem_of_In. simpl. auto.
Defined.

End DocumentServiceProps.

(** ** Further properties of the schema inspector *)

Module InspectorExtras.

Import Inspector.

(** *** The active schema *)

Lemma getDatabaseSchema_cases db :
  (Js.truthy_string (getSchemaName db) = false /\ getDatabaseSchema db = "public") \/
  (Js.truthy_string (getSchemaName db) = true /\ getSchemaName db = Some (getDatabaseSchema db)).
Proof.
  unfold getDatabaseSchema. destruct (getSchemaName db) as [[|c s]|]; simpl; auto.
Qed.

Lemma getDatabaseSchema_unset db :
  getSchemaName db = None \/ getSchemaName db = Some "" ->
  getDatabaseSchema db = "public".
Proof. unfold getDatabaseSchema. by intros [-> | ->]. Qed.

(** The active schema is never the empty string: it is the configured
    name when there is a non-empty one and [public] otherwise. *)
Lemma getDatabaseSchema_nonempty (db : Database) :
  getDatabaseSchema db <> "" /\
  (getDatabaseSchema db = "public" \/ getSchemaName db = Some (getDatabaseSchema db)).
Proof.
  unfold getDatabaseSchema. destruct (getSchemaName db) as [[|c s]|]; simpl;
    split; auto; discriminate.
Qed.

(** X1: with the schema name unset or empty the inspector reads the
    [public] schema: tables, columns and indexes are those that a catalog
    configured with [public] gives. *)
Theorem unset_schema_reads_public (db : Database) (info : InformationSchema)
    (tableName : string) :
  getSchemaName db = None \/ getSchemaName db = Some "" ->
  getTables db info = getTables (Samples.withSchema (Some "public") db) info /\
  getColumns db tableName = getColumns (Samples.withSchema (Some "public") db) tableName /\
  getIndexes db tableName = getIndexes (Samples.withSchema (Some "public") db) tableName.
Proof.
  intros Hs. apply getDatabaseSchema_unset in Hs.
  unfold getTables, getColumns, selectColumns, getIndexes.
  replace (getDatabaseSchema (Samples.withSchema (Some "public") db)) with "public"
    by reflexivity.
  rewrite Hs. done.
Qed.

Lemma unset_schema_reads_public_witness :
  getTables Samples.catalog Samples.relations =
    getTables (Samples.withSchema (Some "public") Samples.catalog) Samples.relations /\
  getColumns Samples.catalog "articles" =
    getColumns (Samples.withSchema (Some "public") Samples.catalog) "articles" /\
  getIndexes Samples.catalog "articles" =
    getIndexes (Samples.withSchema (Some "public") Samples.catalog) "articles".
Proof.
  apply (unset_schema_reads_public Samples.catalog Samples.relations "articles").
  left. reflexivity.
Defined.

(** *** Tables *)

(** X2: [getTables] lists exactly the names of the base tables of the
    active schema other than [geometry_columns] and [spatial_ref_sys];
    those two names and the names of views never come out. *)
Theorem getTables_spec (db : Database) (info : InformationSchema) (name : string) :
  name ∈ getTables db info <->
  name <> "geometry_columns" /\ name <> "spatial_ref_sys" /\
  exists r, r ∈ tables info /\ t_table_name r = name /\
            t_table_schema r = getDatabaseSchema db /\ t_table_type r = "BASE TABLE".
Proof.
  unfold getTables. rewrite list_elem_of_In, in_map_iff. split.
  - intros (r & <- & Hr). apply list_elem_of_In, list_elem_of_filter in Hr.
    destruct Hr as [(Hs & Ht & Hn) Hr]. unfold reservedTables in Hn.
    split; [|split].
    + intros E. apply Hn. rewrite E. in_list.
    + intros E. apply Hn. rewrite E. in_list.
    + exists r. done.
  - intros (Hg & Hsp & r & Hr & <- & Hs & Ht). exists r. split; [done|].
    apply list_elem_of_In, list_elem_of_filter. split; [|done].
    split; [done|]. split; [done|].
    unfold reservedTables. intros Hin.
    apply list_elem_of_In in Hin. simpl in Hin. intuition congruence.
Qed.

Lemma getTables_spec_witness :
  "articles" ∈ getTables Samples.catalog Samples.relations /\
  "spatial_ref_sys" ∉ getTables Samples.catalog Samples.relations.
Proof.
  split.
  - apply (getTables_spec Samples.catalog Samples.relations "articles").
    split; [discriminate|]. split; [discriminate|].
    eexists. split; [apply list_elem_of_here|]. repeat split.
  - intros Hin.
    apply (getTables_spec Samples.catalog Samples.relations "spatial_ref_sys") in Hin.
    destruct Hin as (_ & Hne & _). by apply Hne.
Defined.

(** X3: the tables come out in catalog order, each as often as the
    catalog lists it: the result is a sublist of the table names of the
    catalog. *)
Theorem getTables_sublist (db : Database) (info : InformationSchema) :
  sublist (getTables db info) (map t_table_name (tables info)).
Proof.
  unfold getTables. generalize (tables info). intros l.
  induction l as [|r l IH]; simpl; [constructor|].
  rewrite filter_cons. destruct (decide _); simpl.
  - by apply sublist_skip.
  - by apply sublist_cons.
Qed.

(** *** Columns *)

(** X4: [getColumns] gives one column per catalog row of the table, in
    catalog order and under the name of the row, and no column is
    unsigned. *)
Theorem getColumns_shape (db : Database) (tableName : string) :
  map Column.name (getColumns db tableName) =
    map column_name (selectColumns db tableName) /\
  length (getColumns db tableName) = length (selectColumns db tableName) /\
  Forall (fun c => Column.unsigned c = false) (getColumns db tableName).
Proof.
  unfold getColumns. generalize (selectColumns db tableName). intros l.
  split; [|split].
  - rewrite map_map. reflexivity.
  - apply length_map.
  - induction l as [|r l IH]; simpl; constructor; done.
Qed.

(** X5: a table has no columns in the result exactly when the catalog
    has no row for it in the active schema; a table that the catalog does
    not know is not an error. *)
Theorem getColumns_empty_iff (db : Database) (tableName : string) :
  getColumns db tableName = [] <->
  forall r, r ∈ information_schema_columns db ->
            ~ (table_schema r = getDatabaseSchema db /\ table_name r = tableName).
Proof.
  unfold getColumns, selectColumns. generalize (information_schema_columns db).
  intros l. induction l as [|r l IH]; simpl.
  - split; [|done]. intros _ r Hr. by apply elem_of_nil in Hr.
  - rewrite filter_cons. destruct (decide _) as [Hy|Hn]; simpl.
    + split; [discriminate|]. intros H. destruct (H r); [apply list_elem_of_here | done].
    + rewrite IH. split.
      * intros H x Hx. apply elem_of_cons in Hx as [->|Hx]; [done | by apply H].
      * intros H x Hx. apply H. by apply list_elem_of_further.
Qed.

Lemma getColumns_empty_iff_witness :
  getColumns Samples.catalog "authors" = [].
Proof.
  apply (getColumns_empty_iff Samples.catalog "authors").
  intros r Hr [_ Ht]. unfold Samples.catalog in Hr. simpl in Hr. cases_of Hr.
Defined.

(** *** The root of a native type *)

Lemma lower_unit_delim c : is_delim (Js.lower_unit c) = is_delim c.
Proof. destruct c as [[] [] [] [] [] [] [] []]; reflexivity. Qed.

Lemma lower_unit_idem c : Js.lower_unit (Js.lower_unit c) = Js.lower_unit c.
Proof. destruct c as [[] [] [] [] [] [] [] []]; reflexivity. Qed.

Lemma toLowerCase_idem s : Js.toLowerCase (Js.toLowerCase s) = Js.toLowerCase s.
Proof. induction s as [|c s IH]; simpl; [done|]. by rewrite lower_unit_idem, IH. Qed.

Lemma append_empty_r s : s ++ "" = s.
Proof.
  induction s as [|c s IH]; [done|].
  change (String c (s ++ "") = String c s). by rewrite IH.
Qed.

Lemma toLowerCase_app a b :
  Js.toLowerCase (a ++ b) = Js.toLowerCase a ++ Js.toLowerCase b.
Proof. induction a as [|c a IH]; simpl; [done|]. by rewrite IH. Qed.

Lemma toLowerCase_delims s :
  all_chars is_delim (Js.toLowerCase s) = all_chars is_delim s.
Proof. induction s as [|c s IH]; simpl; [done|]. by rewrite lower_unit_delim, IH. Qed.

Lemma toLowerCase_no_delims s :
  all_chars (fun c => negb (is_delim c)) (Js.toLowerCase s)
  = all_chars (fun c => negb (is_delim c)) s.
Proof. induction s as [|c s IH]; simpl; [done|]. by rewrite lower_unit_delim, IH. Qed.

Lemma ends_root_lower rest : ends_root rest -> ends_root (Js.toLowerCase rest).
Proof.
  intros [->|(c & rest' & -> & Hc)]; [by left|]. right.
  exists (Js.lower_unit c), (Js.toLowerCase rest'). by rewrite lower_unit_delim.
Qed.

Lemma run_app r rest :
  all_chars (fun c => negb (is_delim c)) r = true -> ends_root rest ->
  run (r ++ rest) = r.
Proof.
  intros Hr Hrest. induction r as [|c r IH]; simpl in *.
  - destruct Hrest as [->|(c & rest' & -> & Hc)]; simpl; [done|]. by rewrite Hc.
  - apply andb_true_iff in Hr as [Hc Hr]. apply negb_true_iff in Hc.
    rewrite Hc, IH; done.
Qed.

Lemma rootTypeOf_app pre r rest :
  all_chars is_delim pre = true -> r <> "" ->
  all_chars (fun c => negb (is_delim c)) r = true -> ends_root rest ->
  rootTypeOf (pre ++ r ++ rest) = Some r.
Proof.
  intros Hpre Hne Hr Hrest. induction pre as [|c pre IH]; simpl in *.
  - destruct r as [|c r]; [done|]. simpl in *.
    apply andb_true_iff in Hr as [Hc Hr]. apply negb_true_iff in Hc.
    rewrite Hc. by rewrite run_app.
  - apply andb_true_iff in Hpre as [-> Hpre]. by apply IH.
Qed.

Lemma run_no_delims s : all_chars (fun c => negb (is_delim c)) (run s) = true.
Proof.
  induction s as [|c s IH]; simpl; [done|].
  destruct (is_delim c) eqn:Hc; simpl; [done|]. by rewrite Hc, IH.
Qed.

Lemma rootTypeOf_Some s r :
  rootTypeOf s = Some r ->
  r <> "" /\ all_chars (fun c => negb (is_delim c)) r = true.
Proof.
  induction s as [|c s IH]; simpl; [done|].
  destruct (is_delim c) eqn:Hc; [done|]. intros [= <-].
  split; [done|]. simpl. by rewrite Hc, run_no_delims.
Qed.

Lemma rootTypeOf_None s : rootTypeOf s = None <-> all_chars is_delim s = true.
Proof.
  induction s as [|c s IH]; simpl; [done|].
  destruct (is_delim c); simpl; [done|]. split; discriminate.
Qed.

(** The type depends on the column through its root only. *)
Lemma toStrapiType_type_of_root column column' :
  rootType column = rootType column' ->
  st_type (toStrapiType column) = st_type (toStrapiType column').
Proof.
  unfold toStrapiType. fold (rootType column) (rootType column'). intros ->.
  repeat match goal with
         | |- context [if ?b then _ else _] => destruct b
         end; reflexivity.
Qed.

(** X6: leading delimiters, letter case and whatever follows the first
    delimiter after the name do not matter.  A native type that reads
    [pre ++ r ++ rest], with [pre] made of blanks, commas and parentheses,
    [r] a non-empty name without them and [rest] empty or starting with
    one of them, has the root [r] in lower case and gets the type of the
    bare native type [r] in lower case. *)
Theorem toStrapiType_modifiers_ignored (column column' : RawColumn) (pre r rest : string) :
  data_type column = pre ++ r ++ rest ->
  all_chars is_delim pre = true ->
  r <> "" ->
  all_chars (fun c => negb (is_delim c)) r = true ->
  rest = "" \/ (exists c rest', rest = String c rest' /\ is_delim c = true) ->
  data_type column' = Js.toLowerCase r ->
  rootType column = Some (Js.toLowerCase r) /\
  st_type (toStrapiType column) = st_type (toStrapiType column').
Proof.
  intros Hd Hpre Hne Hr Hrest Hd'.
  assert (Hlr : Js.toLowerCase r <> "") by (destruct r; [done | discriminate]).
  assert (Hroot : rootType column = Some (Js.toLowerCase r)).
  { unfold rootType. rewrite Hd, !toLowerCase_app.
    apply rootTypeOf_app; [by rewrite toLowerCase_delims | done
                          | by rewrite toLowerCase_no_delims
                          | by apply ends_root_lower]. }
  split; [done|]. apply toStrapiType_type_of_root. rewrite Hroot.
  unfold rootType. rewrite Hd', toLowerCase_idem.
  symmetry. rewrite <- (append_empty_r (Js.toLowerCase r)) at 1.
  apply (rootTypeOf_app "" (Js.toLowerCase r) "");
    [done | done | by rewrite toLowerCase_no_delims | by left].
Qed.

Lemma toStrapiType_modifiers_ignored_witness :
  rootType Samples.priceColumn = Some "numeric" /\
  st_type (toStrapiType Samples.priceColumn) =
    st_type (toStrapiType (Samples.rawColumn "price" "numeric" None)).
Proof.
  apply (toStrapiType_modifiers_ignored Samples.priceColumn
           (Samples.rawColumn "price" "numeric" None) "" "NUMERIC" "(12,4)").
  - reflexivity.
  - reflexivity.
  - discriminate.
  - reflexivity.
  - right. exists "("%char, "12,4)". split; reflexivity.
  - reflexivity.
Defined.

(** X7: [specificType] is the answer for unmapped roots only, and it
    always carries the native type string as it stands in the catalog. *)
Theorem toStrapiType_specificType_only_unmapped (column : RawColumn) :
  st_type (toStrapiType column) = "specificType" ->
  (forall label, label ∈ caseLabels -> rootType column <> Some label) /\
  st_args (toStrapiType column) = Some [Js.str (data_type column)].
Proof.
  unfold toStrapiType. fold (rootType column).
  repeat match goal with
         | |- context [if ?b then _ else _] => destruct b eqn:?
         end; simpl; try discriminate.
  intros _. split; [|done].
  repeat match goal with
         | H : _ || _ = false |- _ => apply orb_false_iff in H as [? ?]
         | H : is_case _ _ = false |- _ => apply InspectorProps.is_case_false in H
         end.
  intros label Hin. unfold caseLabels in Hin.
  apply list_elem_of_In in Hin. simpl in Hin. intuition (subst; done).
Qed.

Lemma toStrapiType_specificType_only_unmapped_witness :
  rootType (Samples.rawColumn "document_id" "uuid" None) <> Some "integer" /\
  st_args (toStrapiType (Samples.rawColumn "document_id" "uuid" None)) =
    Some [Js.str "uuid"].
Proof.
  destruct (toStrapiType_specificType_only_unmapped
              (Samples.rawColumn "document_id" "uuid" None) eq_refl) as [Hun Hargs].
  split; [|exact Hargs]. apply Hun. apply list_elem_of_here.
Defined.

(** X8: a native type has no root exactly when it is empty or made of
    blanks, commas and parentheses only, and such a column falls back to
    [specificType]; a root, when there is one, is never empty and holds
    none of these characters. *)
Theorem rootType_spec (column : RawColumn) :
  (rootType column = None <-> all_chars is_delim (data_type column) = true) /\
  (rootType column = None ->
   toStrapiType column =
     {| st_type := "specificType"; st_args := Some [Js.str (data_type column)] |}) /\
  (forall r, rootType column = Some r ->
             r <> "" /\ all_chars (fun c => negb (is_delim c)) r = true).
Proof.
  split; [|split].
  - unfold rootType. by rewrite rootTypeOf_None, toLowerCase_delims.
  - intros Hn. apply InspectorProps.toStrapiType_default.
    intros label _. by rewrite Hn.
  - intros r. apply rootTypeOf_Some.
Qed.

Lemma rootType_spec_witness :
  toStrapiType (Samples.rawColumn "odd" " ( , )" None) =
    {| st_type := "specificType"; st_args := Some [Js.str " ( , )"] |} /\
  ("timestamp" <> "" /\
   all_chars (fun c => negb (is_delim c)) "timestamp" = true).
Proof.
  split.
  - apply (rootType_spec (Samples.rawColumn "odd" " ( , )" None)).
    apply (rootType_spec (Samples.rawColumn "odd" " ( , )" None)). reflexivity.
  - apply (rootType_spec Samples.createdAtColumn). reflexivity.
Defined.

(** *** Index columns *)

Lemma lazy_group_none t : all_chars (is_not ")") t = true -> lazy_group t = None.
Proof.
  induction t as [|c t IH]; simpl; [done|]. unfold is_not at 1.
  intros [Hc Ht]%andb_true_iff. apply negb_true_iff in Hc. rewrite Hc.
  destruct (is_line_terminator c); [done|]. by rewrite IH.
Qed.

Lemma first_group_no_close d : all_chars (is_not ")") d = true -> first_group d = None.
Proof.
  induction d as [|c d IH]; simpl; [done|].
  intros [_ Hd]%andb_true_iff.
  destruct (Ascii.eqb c "("); [|by apply IH]. by rewrite lazy_group_none, IH.
Qed.

Lemma first_group_no_open d : all_chars (is_not "(") d = true -> first_group d = None.
Proof.
  induction d as [|c d IH]; simpl; [done|]. unfold is_not at 1.
  intros [Hc Hd]%andb_true_iff. apply negb_true_iff in Hc. rewrite Hc. by apply IH.
Qed.

Lemma lazy_group_chars t g : lazy_group t = Some g -> all_chars in_group g = true.
Proof.
  revert g. induction t as [|c t IH]; intros g; simpl; [done|].
  destruct (Ascii.eqb c ")") eqn:Hc; [by intros [= <-]|].
  destruct (is_line_terminator c) eqn:Hl; [done|].
  destruct (lazy_group t) as [g'|]; [|done]. intros [= <-]. simpl.
  unfold in_group at 1, is_not. by rewrite Hc, Hl, (IH g').
Qed.

Lemma first_group_chars d g : first_group d = Some g -> all_chars in_group g = true.
Proof.
  induction d as [|c d IH]; simpl; [done|].
  destruct (Ascii.eqb c "("); [|done].
  destruct (lazy_group d) as [g'|] eqn:Hg; [|done].
  intros [= <-]. by apply lazy_group_chars in Hg.
Qed.

Lemma split_not_nil sep s : Js.split sep s <> [].
Proof.
  destruct s as [|c s]; simpl; [done|].
  destruct (Ascii.eqb c sep); [done|]. by destruct (Js.split sep s).
Qed.

(** The pieces hold no separator, and keep what holds of every character
    of the whole. *)
Lemma split_pieces p sep s :
  all_chars p s = true ->
  Forall (fun w => all_chars p w = true /\ all_chars (is_not sep) w = true)
         (Js.split sep s).
Proof.
  induction s as [|c s IH]; simpl.
  - intros _. by repeat constructor.
  - intros [Hc Hs]%andb_true_iff. specialize (IH Hs).
    destruct (Ascii.eqb c sep) eqn:E.
    + constructor; [done|]. exact IH.
    + destruct (Js.split sep s) as [|w ws]; [by repeat constructor; simpl; rewrite ?Hc; unfold is_not; rewrite ?E|].
      apply Forall_cons in IH as [[Hw1 Hw2] Hws]. constructor; [|done].
      simpl. unfold is_not at 1. by rewrite Hc, E, Hw1, Hw2.
Qed.

Lemma trimStart_chars p s : all_chars p s = true -> all_chars p (Js.trimStart s) = true.
Proof.
  induction s as [|c s IH]; simpl; [done|].
  intros H. destruct (Js.is_space c); [|done].
  apply andb_true_iff in H as [_ H]. by apply IH.
Qed.

Lemma trimEnd_chars p s : all_chars p s = true -> all_chars p (Js.trimEnd s) = true.
Proof.
  induction s as [|c s IH]; simpl; [done|].
  intros [Hc Hs]%andb_true_iff. specialize (IH Hs).
  destruct (Js.trimEnd s) as [|c' s'].
  - destruct (Js.is_space c); simpl; [done|]. by rewrite Hc.
  - change (p c && all_chars p (String c' s') = true). by rewrite Hc, IH.
Qed.

Lemma trimEnd_keeps_head c s :
  Js.is_space c = false -> Js.trimEnd (String c s) = String c (Js.trimEnd s).
Proof. intros Hc. simpl. destruct (Js.trimEnd s); by rewrite ?Hc. Qed.

Lemma trimEnd_idem s : Js.trimEnd (Js.trimEnd s) = Js.trimEnd s.
Proof.
  induction s as [|c s IH]; simpl; [done|].
  destruct (Js.trimEnd s) as [|c' s'] eqn:E.
  - destruct (Js.is_space c) eqn:Hc; [done|]. simpl. by rewrite Hc.
  - simpl. simpl in IH. by rewrite IH.
Qed.

Lemma trimStart_head s :
  Js.trimStart s = "" \/
  exists c t, Js.trimStart s = String c t /\ Js.is_space c = false.
Proof.
  induction s as [|c s IH]; simpl; [by left|].
  destruct (Js.is_space c) eqn:Hc; [done|]. right. by exists c, s.
Qed.

Lemma trim_idem s : Js.trim (Js.trim s) = Js.trim s.
Proof.
  unfold Js.trim. destruct (trimStart_head s) as [->|(c & t' & -> & Hc)]; [done|].
  rewrite (trimEnd_keeps_head c t' Hc). simpl Js.trimStart. rewrite Hc.
  rewrite <- (trimEnd_keeps_head c t' Hc). apply trimEnd_idem.
Qed.

(** X9: an index definition without an opening or without a closing
    parenthesis has no columns. *)
Theorem parseIndexColumns_no_parenthesis (indexDef : string) :
  all_chars (is_not "(") indexDef = true \/ all_chars (is_not ")") indexDef = true ->
  parseIndexColumns indexDef = [].
Proof.
  unfold parseIndexColumns.
  intros [H|H]; [rewrite first_group_no_open | rewrite first_group_no_close]; done.
Qed.

Lemma parseIndexColumns_no_parenthesis_witness :
  parseIndexColumns "CREATE INDEX articles_title_idx" = [].
Proof.
  apply (parseIndexColumns_no_parenthesis "CREATE INDEX articles_title_idx").
  left. reflexivity.
Defined.

(** X10: every column that [parseIndexColumns] returns is trimmed and
    holds no comma, no closing parenthesis and no line terminator. *)
Theorem parseIndexColumns_columns_clean (indexDef : string) :
  Forall (fun col => Js.trim col = col /\
                     all_chars (is_not ",") col = true /\
                     all_chars in_group col = true)
         (parseIndexColumns indexDef).
Proof.
  unfold parseIndexColumns.
  destruct (first_group indexDef) as [g|] eqn:Hg; [|constructor].
  apply first_group_chars in Hg.
  pose proof (split_pieces in_group "," g Hg) as Hp.
  induction Hp as [|w ws [Hw1 Hw2] _ IH]; simpl; constructor; [|exact IH].
  split; [apply trim_idem|]. unfold Js.trim.
  split; by apply trimEnd_chars, trimStart_chars.
Qed.

(** X11: when a definition has a parenthesised group, the column list is
    not empty: a group without commas gives one column, even for the
    empty group [()]. *)
Theorem parseIndexColumns_group_nonempty (indexDef g : string) :
  first_group indexDef = Some g ->
  parseIndexColumns indexDef <> [] /\
  (all_chars (is_not ",") g = true -> parseIndexColumns indexDef = [Js.trim g]).
Proof.
  unfold parseIndexColumns. intros ->. split.
  - pose proof (split_not_nil "," g). by destruct (Js.split "," g).
  - intros Hg. clear -Hg. assert (Js.split "," g = [g]) as ->; [|done].
    induction g as [|c g IH]; simpl; [done|]. simpl in Hg.
    apply andb_true_iff in Hg as [Hc Hg]. unfold is_not in Hc.
    apply negb_true_iff in Hc. by rewrite Hc, IH.
Qed.

Lemma parseIndexColumns_group_nonempty_witness :
  parseIndexColumns "CREATE INDEX i ON t USING btree ()" <> [] /\
  parseIndexColumns "CREATE INDEX i ON t USING btree ()" = [""].
Proof.
  destruct (parseIndexColumns_group_nonempty
              "CREATE INDEX i ON t USING btree ()" "" eq_refl) as [Hne Hone].
  split; [exact Hne|]. apply Hone. reflexivity.
Defined.

Lemma all_chars_app p a b :
  all_chars p (a ++ b) = all_chars p a && all_chars p b.
Proof.
  induction a as [|c a IH]; [done|].
  change (p c && all_chars p (a ++ b) = p c && all_chars p a && all_chars p b).
  by rewrite IH, andb_assoc.
Qed.

Lemma all_chars_weaken (p q : ascii -> bool) s :
  (forall c, p c = true -> q c = true) ->
  all_chars p s = true -> all_chars q s = true.
Proof.
  intros Hpq. induction s as [|c s IH]; simpl; [done|].
  intros [Hc Hs]%andb_true_iff. by rewrite (Hpq c Hc), IH.
Qed.

Lemma is_plain_in_group c : is_plain c = true -> in_group c = true.
Proof. destruct c as [[] [] [] [] [] [] [] []]; vm_compute; done. Qed.

Lemma is_plain_no_comma c : is_plain c = true -> is_not "," c = true.
Proof. destruct c as [[] [] [] [] [] [] [] []]; vm_compute; done. Qed.

Lemma is_plain_no_space c : is_plain c = true -> Js.is_space c = false.
Proof. destruct c as [[] [] [] [] [] [] [] []]; vm_compute; done. Qed.

Lemma lazy_group_app g post :
  all_chars in_group g = true -> lazy_group (g ++ String ")" post) = Some g.
Proof.
  induction g as [|c g IH]; [done|]. intros [Hc Hg]%andb_true_iff.
  change (lazy_group (String c (g ++ String ")" post)) = Some (String c g)).
  simpl. unfold in_group, is_not in Hc.
  apply andb_true_iff in Hc as [Hc Hl]. apply negb_true_iff in Hc, Hl.
  by rewrite Hc, Hl, IH.
Qed.

Lemma first_group_app pre g post :
  all_chars (is_not "(") pre = true -> all_chars in_group g = true ->
  first_group (pre ++ String "(" (g ++ String ")" post)) = Some g.
Proof.
  intros Hpre Hg. induction pre as [|c pre IH].
  - change (first_group (String "(" (g ++ String ")" post)) = Some g).
    simpl. by rewrite lazy_group_app.
  - apply andb_true_iff in Hpre as [Hc Hpre]. unfold is_not in Hc.
    apply negb_true_iff in Hc.
    change (first_group (String c (pre ++ String "(" (g ++ String ")" post))) = Some g).
    simpl. rewrite Hc. by apply IH.
Qed.

Lemma split_single sep s : all_chars (is_not sep) s = true -> Js.split sep s = [s].
Proof.
  induction s as [|c s IH]; simpl; [done|].
  intros [Hc Hs]%andb_true_iff. unfold is_not in Hc. apply negb_true_iff in Hc.
  by rewrite Hc, IH.
Qed.

Lemma split_app sep s rest :
  all_chars (is_not sep) s = true ->
  Js.split sep (s ++ String sep rest) = s :: Js.split sep rest.
Proof.
  induction s as [|c s IH].
  - intros _. change (Js.split sep (String sep rest) = "" :: Js.split sep rest).
    simpl. by rewrite Ascii.eqb_refl.
  - intros [Hc Hs]%andb_true_iff. unfold is_not in Hc. apply negb_true_iff in Hc.
    change (Js.split sep (String c (s ++ String sep rest)) = String c s :: Js.split sep rest).
    simpl. by rewrite Hc, IH.
Qed.

Lemma trim_plain s : all_chars is_plain s = true -> Js.trim s = s.
Proof.
  intros Hs. unfold Js.trim.
  assert (He : Js.trimEnd s = s).
  { induction s as [|c s IH]; [done|]. simpl in Hs.
    apply andb_true_iff in Hs as [Hc Hs].
    rewrite trimEnd_keeps_head by by apply is_plain_no_space. by rewrite IH. }
  destruct s as [|c s]; [done|]. simpl in Hs. apply andb_true_iff in Hs as [Hc _].
  simpl Js.trimStart. by rewrite (is_plain_no_space c Hc).
Qed.

Lemma trim_after_blank s :
  map Js.trim (Js.split "," (String " " s)) = map Js.trim (Js.split "," s).
Proof.
  simpl. pose proof (split_not_nil "," s). by destruct (Js.split "," s).
Qed.

Lemma joinColumns_cons c c' rest :
  joinColumns (c :: c' :: rest) = c ++ String "," (String " " (joinColumns (c' :: rest))).
Proof. reflexivity. Qed.

Lemma joinColumns_in_group cols :
  Forall (fun c => all_chars is_plain c = true) cols ->
  all_chars in_group (joinColumns cols) = true.
Proof.
  induction cols as [|c [|c' rest] IH]; intros H; [done|..].
  - apply Forall_cons in H as [Hc _]. simpl.
    by apply (all_chars_weaken is_plain), Hc; apply is_plain_in_group.
  - apply Forall_cons in H as [Hc H]. rewrite joinColumns_cons, all_chars_app.
    rewrite (all_chars_weaken is_plain in_group c is_plain_in_group Hc).
    simpl. by apply IH.
Qed.

Lemma split_joinColumns cols :
  cols <> [] -> Forall (fun c => all_chars is_plain c = true) cols ->
  map Js.trim (Js.split "," (joinColumns cols)) = cols.
Proof.
  induction cols as [|c [|c' rest] IH]; intros Hne H; [done|..].
  - apply Forall_cons in H as [Hc _]. simpl joinColumns.
    rewrite split_single by (by apply (all_chars_weaken is_plain), Hc; apply is_plain_no_comma).
    simpl. by rewrite trim_plain.
  - apply Forall_cons in H as [Hc H]. rewrite joinColumns_cons.
    rewrite split_app by (by apply (all_chars_weaken is_plain), Hc; apply is_plain_no_comma).
    rewrite map_cons, trim_after_blank, IH by done. by rewrite trim_plain.
Qed.

(** X12: round trip.  For an index definition of the usual shape, a
    prefix without parenthesis, then the column names joined by [", "]
    between parentheses, then anything, [parseIndexColumns] gives the
    column names back, when the names are plain (no white space, comma or
    parenthesis). *)
Theorem parseIndexColumns_joinColumns (pre post : string) (cols : list string) :
  all_chars (is_not "(") pre = true ->
  cols <> [] ->
  Forall (fun c => all_chars is_plain c = true) cols ->
  parseIndexColumns (pre ++ String "(" (joinColumns cols ++ String ")" post)) = cols.
Proof.
  intros Hpre Hne Hcols. unfold parseIndexColumns.
  rewrite first_group_app; [|done|by apply joinColumns_in_group].
  by apply split_joinColumns.
Qed.

Lemma parseIndexColumns_joinColumns_witness :
  parseIndexColumns
    ("CREATE UNIQUE INDEX articles_doc_idx ON public.articles USING btree "
       ++ String "(" (joinColumns ["document_id"; "locale"] ++ String ")" " WHERE x"))
  = ["document_id"; "locale"].
Proof.
  apply (parseIndexColumns_joinColumns
           "CREATE UNIQUE INDEX articles_doc_idx ON public.articles USING btree "
           " WHERE x" ["document_id"; "locale"]).
  - reflexivity.
  - discriminate.
  - repeat constructor.
Defined.

(** *** Indexes *)

(** X13: [getIndexes] gives one index per [pg_indexes] row of the table,
    in catalog order and under the name of the row, and none of them
    carries a kind: the query selects [indexname] and [indexdef] only, so
    [getIndexType] never sees a flag. *)
Theorem getIndexes_shape (db : Database) (tableName : string) :
  map Index.name (getIndexes db tableName) =
    map indexname
      (filter (fun r => schemaname r = getDatabaseSchema db /\ tablename r = tableName)
              (pg_indexes db)) /\
  Forall (fun idx => Index.type idx = None) (getIndexes db tableName).
Proof.
  unfold getIndexes. generalize (filter (fun r => schemaname r = getDatabaseSchema db
                                                  /\ tablename r = tableName) (pg_indexes db)).
  intros l. split.
  - rewrite !map_map. reflexivity.
  - induction l as [|r l IH]; simpl; constructor; done.
Qed.

(** *** Foreign keys *)

Lemma promiseAll_inr {A B} (f : A -> Thrown + B) items ys :
  promiseAll f items = inr ys <-> Forall2 (fun x y => f x = inr y) items ys.
Proof.
  revert ys. induction items as [|x items IH]; intros ys; simpl.
  - split; [intros [= <-]; constructor | by inversion 1].
  - destruct (f x) as [e|y] eqn:Hx.
    + split; [done|]. inversion 1; congruence.
    + destruct (promiseAll f items) as [e|ys'] eqn:Hrest.
      * split; [done|]. inversion 1 as [|? y' ? ys'' Hy Hys]; subst.
        apply IH in Hys. discriminate.
      * split.
        -- intros [= <-]. constructor; [done|]. by apply IH.
        -- inversion 1 as [|? y' ? ys'' Hy Hys]; subst.
           apply IH in Hys. congruence.
Qed.

Lemma promiseAll_inl {A B} (f : A -> Thrown + B) items :
  promiseAll f items = inl TypeError <-> exists x, x ∈ items /\ f x = inl TypeError.
Proof.
  induction items as [|x items IH]; simpl.
  - split; [done|]. intros (x & Hx & _). by apply elem_of_nil in Hx.
  - destruct (f x) as [[]|y] eqn:Hx.
    + split; [|done]. intros _. exists x. split; [apply list_elem_of_here | done].
    + destruct (promiseAll f items) as [[]|ys].
      * split; [|done]. intros _. destruct (proj1 IH eq_refl) as (z & Hz & Hfz).
        exists z. split; [by apply list_elem_of_further | done].
      * split; [done|]. intros (z & Hz & Hfz).
        apply elem_of_cons in Hz as [->|Hz]; [congruence|].
        assert (inr ys = inl TypeError :> Thrown + list B); [|done].
        apply IH. by exists z.
Qed.

Lemma getForeignKeyReferences_throws db info constraintName :
  getForeignKeyReferences db info constraintName = inl TypeError <->
  forall r, r ∈ referential_constraints info ->
            ~ (rc_constraint_name r = constraintName
               /\ rc_constraint_schema r = getDatabaseSchema db).
Proof.
  unfold getForeignKeyReferences.
  match goal with
  | |- context [filter ?P (referential_constraints info)] =>
      pose proof (list_elem_of_filter P (referential_constraints info)) as Hspec;
      destruct (filter P (referential_constraints info)) as [|r0 l]
  end.
  - split; [|done]. intros _ r Hr Hp.
    apply (elem_of_nil r), Hspec. done.
  - split; [done|]. intros H.
    destruct (proj1 (Hspec r0) (list_elem_of_here _ _)) as [Hp Hin].
    by destruct (H r0 Hin).
Qed.

Lemma getForeignKeyReferences_table db info constraintName refs :
  getForeignKeyReferences db info constraintName = inr refs ->
  (ref_referencedColumns refs = [] -> ref_referencedTable refs = None) /\
  (forall tbl, ref_referencedTable refs = Some tbl ->
               tbl <> "" /\ ref_referencedColumns refs <> []).
Proof.
  unfold getForeignKeyReferences.
  destruct (filter _ (referential_constraints info)) as [|r0 l]; [done|].
  intros [= <-]. simpl.
  destruct (filter _ (key_column_usage info)) as [|col cols]; simpl.
  - split; [done|]. intros tbl [=].
  - split; [done|]. intros tbl.
    destruct (kcu_table_name col) as [|a s]; simpl; [done|].
    intros [= <-]. done.
Qed.

(** The foreign key that the callback of [getForeignKeys] builds. *)
Lemma getForeignKeys_entries db info tableName fks :
  getForeignKeys db info tableName = inr fks ->
  Forall2 (fun c fk =>
             exists refs,
               getForeignKeyReferences db info c = inr refs /\
               fk = {| ForeignKey.name := c;
                       ForeignKey.columns := getForeignKeyColumns db info c tableName;
                       ForeignKey.referencedTable := ref_referencedTable refs;
                       ForeignKey.referencedColumns := ref_referencedColumns refs;
                       ForeignKey.onUpdate := ref_onUpdate refs;
                       ForeignKey.onDelete := ref_onDelete refs |})
          (foreignKeyConstraints db info tableName) fks.
Proof.
  unfold getForeignKeys. intros H. apply promiseAll_inr in H.
  induction H as [|c fk cs fks' Hc _ IH]; constructor; [|exact IH].
  destruct (getForeignKeyReferences db info c) as [e|refs]; [done|].
  exists refs. split; [done|]. congruence.
Qed.

(** X14: when [getForeignKeys] returns, it returns one foreign key per
    FOREIGN KEY constraint of the table, in catalog order and under the
    name of the constraint, with the columns that [key_column_usage]
    lists for the constraint on that table. *)
Theorem getForeignKeys_shape (db : Database) (info : InformationSchema)
    (tableName : string) (fks : list ForeignKey.t) :
  getForeignKeys db info tableName = inr fks ->
  map ForeignKey.name fks = foreignKeyConstraints db info tableName /\
  Forall (fun fk => ForeignKey.columns fk =
                      getForeignKeyColumns db info (ForeignKey.name fk) tableName) fks.
Proof.
  intros H. apply getForeignKeys_entries in H.
  induction H as [|c fk cs fks' (refs & _ & ->) _ [IH1 IH2]]; simpl.
  - split; [done | constructor].
  - split; [by rewrite IH1 | by constructor].
Qed.

Lemma getForeignKeys_shape_witness :
  map ForeignKey.name [Samples.authorForeignKey] =
    foreignKeyConstraints Samples.catalog Samples.relations "articles" /\
  Forall (fun fk => ForeignKey.columns fk =
                      getForeignKeyColumns Samples.catalog Samples.relations
                        (ForeignKey.name fk) "articles")
         [Samples.authorForeignKey].
Proof.
  apply (getForeignKeys_shape Samples.catalog Samples.relations "articles").
  reflexivity.
Defined.

(** X15: [getForeignKeys] throws a TypeError exactly when some FOREIGN
    KEY constraint of the table has no row in [referential_constraints]
    under its name in the active schema; one such constraint makes the
    whole call fail. *)
Theorem getForeignKeys_throws_iff (db : Database) (info : InformationSchema)
    (tableName : string) :
  getForeignKeys db info tableName = inl TypeError <->
  exists c, c ∈ foreignKeyConstraints db info tableName /\
            forall r, r ∈ referential_constraints info ->
                      ~ (rc_constraint_name r = c
                         /\ rc_constraint_schema r = getDatabaseSchema db).
Proof.
  unfold getForeignKeys. rewrite promiseAll_inl. split.
  - intros (c & Hc & Hf). exists c. split; [done|].
    apply getForeignKeyReferences_throws.
    by destruct (getForeignKeyReferences db info c) as [[]|].
  - intros (c & Hc & Hno). exists c. split; [done|].
    apply getForeignKeyReferences_throws in Hno. by rewrite Hno.
Qed.

Lemma getForeignKeys_throws_iff_witness :
  getForeignKeys Samples.catalog Samples.danglingRelations "articles" = inl TypeError.
Proof.
  apply (getForeignKeys_throws_iff Samples.catalog Samples.danglingRelations "articles").
  exists "articles_author_fk". split.
  - apply list_elem_of_In. vm_compute. auto.
  - intros r Hr. simpl in Hr. by apply elem_of_nil in Hr.
Defined.

(** X16: in every foreign key that [getForeignKeys] returns, the
    referenced table is null when no referenced column was found, and a
    referenced table that is reported is a non-empty name that comes with
    at least one referenced column. *)
Theorem getForeignKeys_referencedTable (db : Database) (info : InformationSchema)
    (tableName : string) (fks : list ForeignKey.t) :
  getForeignKeys db info tableName = inr fks ->
  Forall (fun fk =>
            (ForeignKey.referencedColumns fk = [] -> ForeignKey.referencedTable fk = None) /\
            (forall tbl, ForeignKey.referencedTable fk = Some tbl ->
                         tbl <> "" /\ ForeignKey.referencedColumns fk <> []))
         fks.
Proof.
  intros H. apply getForeignKeys_entries in H.
  induction H as [|c fk cs fks' (refs & Hrefs & ->) _ IH]; constructor; [|exact IH].
  simpl. by apply (getForeignKeyReferences_table db info c).
Qed.

Lemma getForeignKeys_referencedTable_witness :
  Forall (fun fk =>
            (ForeignKey.referencedColumns fk = [] -> ForeignKey.referencedTable fk = None) /\
            (forall tbl, ForeignKey.referencedTable fk = Some tbl ->
                         tbl <> "" /\ ForeignKey.referencedColumns fk <> []))
         [Samples.authorForeignKey].
Proof.
  apply (getForeignKeys_referencedTable Samples.catalog Samples.relations "articles").
  reflexivity.
Defined.

End InspectorExtras.

(** ** Further properties of the page guard *)

Module PageHelpersExtras.

Import PageHelpers.

Lemma findIndex_complete {A} (p : A -> bool) l x :
  x ∈ l -> p x = true -> 0 <= findIndex p l.
Proof.
  intros Hin Hp. induction l as [|a l IH]; simpl.
  - by apply elem_of_nil in Hin.
  - destruct (p a) eqn:Ha; [lia|].
    apply elem_of_cons in Hin as [->|Hin]; [congruence|]. specialize (IH Hin).
    destruct (findIndex p l =? -1) eqn:E; [apply Z.eqb_eq in E; lia | lia].
Qed.

Lemma matchingPermissions_elem allPermissions permissions p :
  p ∈ matchingPermissions allPermissions permissions <->
  p ∈ allPermissions /\
  exists required, required ∈ permissions /\
                   action required = action p /\ subject required = subject p.
Proof.
  unfold matchingPermissions. rewrite list_elem_of_In, filter_In, <- list_elem_of_In.
  split; intros [Hall H]; (split; [done|]).
  - apply Z.leb_le, PageHelpersProps.findIndex_found in H as (required & Hreq & Hsame).
    exists required. split; [done|]. unfold samePermission in Hsame.
    apply andb_true_iff in Hsame as [Ha Hs].
    apply String.eqb_eq in Ha. by apply bool_decide_eq_true in Hs.
  - destruct H as (required & Hreq & Ha & Hs). apply Z.leb_le.
    apply (findIndex_complete _ _ required); [done|]. unfold samePermission.
    apply andb_true_iff. split; [by apply String.eqb_eq | by apply bool_decide_eq_true].
Qed.

Lemma matchingPermissions_no_conditions allPermissions permissions :
  Forall (fun p => hasConditions p = false) allPermissions ->
  shouldCheckConditions allPermissions permissions = false.
Proof.
  unfold shouldCheckConditions, matchingPermissions. intros Hall.
  induction Hall as [|p l Hp _ IH]; simpl; [done|].
  destruct (0 <=? findIndex _ permissions); simpl; [|done]. by rewrite Hp.
Qed.

Lemma shouldCheckConditions_matching allPermissions permissions :
  shouldCheckConditions allPermissions permissions = true ->
  matchingPermissions allPermissions permissions <> [].
Proof.
  unfold shouldCheckConditions.
  by destruct (matchingPermissions allPermissions permissions).
Qed.

Lemma data_has_false (d : list bool) : existsb negb d = true <-> false ∈ d.
Proof.
  induction d as [|b d IH]; simpl.
  - split; [done|]. intros H. by apply elem_of_nil in H.
  - rewrite elem_of_cons, <- IH. destruct b; simpl; intuition congruence.
Qed.

(** X17: the matching permissions are exactly the permissions of the
    user that have the action and the subject of some required
    permission, in the order in which the user holds them. *)
Theorem matchingPermissions_spec_iff (allPermissions permissions : list Permission)
    (p : Permission) :
  (p ∈ matchingPermissions allPermissions permissions <->
   p ∈ allPermissions /\
   exists required, required ∈ permissions /\
                    action required = action p /\ subject required = subject p) /\
  sublist (matchingPermissions allPermissions permissions) allPermissions.
Proof.
  split; [apply matchingPermissions_elem|].
  unfold matchingPermissions. induction allPermissions as [|q l IH]; simpl; [constructor|].
  destruct (0 <=? findIndex _ permissions); [by apply sublist_skip | by apply sublist_cons].
Qed.

Lemma matchingPermissions_spec_iff_witness :
  Samples.readRoles ∈
    matchingPermissions [Samples.readRoles]
                        [Samples.readRoles; Samples.updateRoles].
Proof.
  apply (matchingPermissions_spec_iff [Samples.readRoles]
           [Samples.readRoles; Samples.updateRoles] Samples.readRoles).
  split; [apply list_elem_of_here|].
  exists Samples.readRoles. split; [apply list_elem_of_here | split; reflexivity].
Defined.

(** X18: when [Protect] renders the children, it hands them the matching
    permissions, there is at least one of them, and so the user holds at
    least one of the required permissions. *)
Theorem Protect_children_guarantee {ApiError} (allPermissions : list Permission)
    (hook : list PermissionToCheck -> bool -> QueryState ApiError)
    (formatAPIError : ApiError -> string) (permissionsProp : option (list Permission))
    (shown : list Permission) :
  (Protect allPermissions hook formatAPIError permissionsProp).1 = Children shown ->
  shown = matchingPermissions allPermissions (default [] permissionsProp) /\
  shown <> [] /\
  exists required,
    required ∈ default [] permissionsProp /\ holds allPermissions required.
Proof.
  intros H. pose proof (PageHelpersProps.Protect_children_some_match _ _ _ _ _ H) as Hreq.
  revert H. unfold Protect. simpl. set (permissions := default [] permissionsProp).
  destruct (isLoading _); [done|]. destruct (bool_decide _); [done|].
  destruct (canAccess allPermissions hook permissions) eqn:Hc; [|done].
  simpl. intros [= <-]. split; [done|]. split; [|done].
  unfold canAccess in Hc.
  destruct (shouldCheckConditions allPermissions permissions) eqn:Hs.
  - by apply shouldCheckConditions_matching.
  - by destruct (matchingPermissions allPermissions permissions).
Qed.

Lemma Protect_children_guarantee_witness :
  [Samples.readRoles] =
    matchingPermissions [Samples.readRoles]
      (default [] (Some [Samples.readRoles; Samples.updateRoles])) /\
  [Samples.readRoles] <> [] /\
  exists required,
    required ∈ default [] (Some [Samples.readRoles; Samples.updateRoles]) /\
    holds [Samples.readRoles] required.
Proof.
  apply (Protect_children_guarantee [Samples.readRoles] Samples.grantingHook id
           (Some [Samples.readRoles; Samples.updateRoles]) [Samples.readRoles]).
  reflexivity.
Defined.

Lemma Protect_unconditional {ApiError} (allPermissions : list Permission)
    (hook : list PermissionToCheck -> bool -> QueryState ApiError)
    (formatAPIError : ApiError -> string) (permissionsProp : option (list Permission)) :
  honoursSkip hook ->
  Forall (fun p => hasConditions p = false) allPermissions ->
  Protect allPermissions hook formatAPIError permissionsProp =
    (match matchingPermissions allPermissions (default [] permissionsProp) with
     | [] => NoPermissions
     | matching => Children matching
     end, []).
Proof.
  intros Hskip Hall. unfold Protect, notifications, canAccess, checkQuery.
  rewrite matchingPermissions_no_conditions by done. simpl.
  destruct (Hskip (map (fun perm => {| check_action := action perm;
                                       check_subject := subject perm |})
                       (matchingPermissions allPermissions (default [] permissionsProp))))
    as [-> ->].
  simpl. by destruct (matchingPermissions allPermissions (default [] permissionsProp)).
Qed.

(** X19: for a user whose permissions carry no conditions, and a hook
    that leaves a skipped query uninitialized, [Protect] decides on the
    matching permissions alone: the no-access page when there is none,
    the children otherwise, and no notification. *)
Theorem Protect_without_conditions {ApiError} (allPermissions : list Permission)
    (hook : list PermissionToCheck -> bool -> QueryState ApiError)
    (formatAPIError : ApiError -> string) (permissionsProp : option (list Permission)) :
  honoursSkip hook ->
  Forall (fun p => hasConditions p = false) allPermissions ->
  Protect allPermissions hook formatAPIError permissionsProp =
    (match matchingPermissions allPermissions (default [] permissionsProp) with
     | [] => NoPermissions
     | matching => Children matching
     end, []).
Proof. apply Protect_unconditional. Qed.

Lemma Protect_without_conditions_witness :
  Protect [Samples.readRoles] Samples.grantingHook id (Some [Samples.updateRoles]) =
    (match matchingPermissions [Samples.readRoles] (default [] (Some [Samples.updateRoles])) with
     | [] => NoPermissions
     | matching => Children matching
     end, []).
Proof.
  apply (Protect_without_conditions [Samples.readRoles] Samples.grantingHook id
           (Some [Samples.updateRoles])).
  - intros args. split; reflexivity.
  - repeat constructor.
Defined.

(** X20: a warning notification is raised exactly when the query reports
    an error, with the formatted error as its message, and then the
    children are not rendered: the page shows the loader or the error
    page. *)
Theorem Protect_error_notification {ApiError} (allPermissions : list Permission)
    (hook : list PermissionToCheck -> bool -> QueryState ApiError)
    (formatAPIError : ApiError -> string) (permissionsProp : option (list Permission)) :
  let q := checkQuery allPermissions hook (default [] permissionsProp) in
  let result := Protect allPermissions hook formatAPIError permissionsProp in
  (forall e, error q = Some e ->
     result.2 = [{| type := "warning"; message := formatAPIError e |}] /\
     (result.1 = Loading \/ result.1 = Error)) /\
  (error q = None -> result.2 = []).
Proof.
  simpl. unfold Protect, notifications. simpl. split.
  - intros e He. rewrite He. split; [done|].
    destruct (isLoading _); [by left|]. right. by rewrite bool_decide_eq_true_2.
  - intros He. by rewrite He.
Qed.

Lemma Protect_error_notification_witness :
  (Protect [Samples.readOwnRoles] Samples.failingHook id (Some [Samples.readRoles])).2
    = [{| type := "warning"; message := "Forbidden" |}] /\
  (Protect [Samples.readRoles] Samples.failingHook id (Some [Samples.readRoles])).2 = [].
Proof.
  split.
  - apply (Protect_error_notification [Samples.readOwnRoles] Samples.failingHook id
             (Some [Samples.readRoles])). reflexivity.
  - apply (Protect_error_notification [Samples.readRoles] Samples.failingHook id
             (Some [Samples.readRoles])). reflexivity.
Defined.

(** X21: when a matching permission carries conditions and the query has
    answered without error, one [false] in the answer gives the
    no-access page, and an answer without [false], or no answer at all
    ([data] undefined), gives the children. *)
Theorem Protect_checked_conditions {ApiError} (allPermissions : list Permission)
    (hook : list PermissionToCheck -> bool -> QueryState ApiError)
    (formatAPIError : ApiError -> string) (permissionsProp : option (list Permission)) :
  let permissions := default [] permissionsProp in
  let q := checkQuery allPermissions hook permissions in
  let result := Protect allPermissions hook formatAPIError permissionsProp in
  shouldCheckConditions allPermissions permissions = true ->
  isLoading q = false -> error q = None ->
  (forall d, data q = Some d -> false ∈ d -> result = (NoPermissions, [])) /\
  (forall d, data q = Some d -> false ∉ d ->
     result = (Children (matchingPermissions allPermissions permissions), [])) /\
  (data q = None ->
     result = (Children (matchingPermissions allPermissions permissions), [])).
Proof.
  simpl. intros Hs Hl He. unfold Protect, notifications, canAccess.
  rewrite Hs, Hl, He. simpl. split; [|split].
  - intros d -> Hd. simpl. apply data_has_false in Hd. by rewrite Hd.
  - intros d -> Hd. simpl. destruct (existsb negb d) eqn:E; [|done].
    by apply data_has_false in E.
  - by intros ->.
Qed.

Lemma Protect_checked_conditions_witness :
  Protect [Samples.readOwnRoles] Samples.denyingHook id (Some [Samples.readRoles])
    = (NoPermissions, []) /\
  Protect [Samples.readOwnRoles] Samples.grantingHook id (Some [Samples.readRoles])
    = (Children (matchingPermissions [Samples.readOwnRoles] [Samples.readRoles]), []).
Proof.
  split.
  - destruct (Protect_checked_conditions [Samples.readOwnRoles] Samples.denyingHook id
                (Some [Samples.readRoles]) eq_refl eq_refl eq_refl) as (Hdeny & _ & _).
    apply (Hdeny [false]); [reflexivity | apply list_elem_of_here].
  - destruct (Protect_checked_conditions [Samples.readOwnRoles] Samples.grantingHook id
                (Some [Samples.readRoles]) eq_refl eq_refl eq_refl) as (_ & Hgrant & _).
    apply (Hgrant [true]); [reflexivity|].
    intros H. apply list_elem_of_In in H. simpl in H. intuition discriminate.
Defined.

(** X22: requiring more permissions never takes a matching permission
    away; for a user without conditions a page that is shown stays shown
    when further permissions are added to the list. *)
Theorem Protect_more_required {ApiError} (allPermissions : list Permission)
    (hook : list PermissionToCheck -> bool -> QueryState ApiError)
    (formatAPIError : ApiError -> string) (permissions more : list Permission) :
  (forall p, p ∈ matchingPermissions allPermissions permissions ->
             p ∈ matchingPermissions allPermissions (permissions ++ more)%list) /\
  (honoursSkip hook ->
   Forall (fun p => hasConditions p = false) allPermissions ->
   forall shown,
     (Protect allPermissions hook formatAPIError (Some permissions)).1 = Children shown ->
     exists shown',
       (Protect allPermissions hook formatAPIError (Some (permissions ++ more)%list)).1
         = Children shown').
Proof.
  assert (Hmono : forall p, p ∈ matchingPermissions allPermissions permissions ->
                            p ∈ matchingPermissions allPermissions (permissions ++ more)%list).
  { intros p. rewrite !matchingPermissions_elem.
    intros (Hall & required & Hreq & Ha & Hs). split; [done|].
    exists required. split; [|done]. apply elem_of_app. by left. }
  split; [exact Hmono|]. intros Hskip Hall shown.
  rewrite (Protect_unconditional _ _ _ (Some permissions)) by done.
  rewrite (Protect_unconditional _ _ _ (Some (permissions ++ more)%list)) by done.
  change (default [] (Some permissions)) with permissions.
  change (default [] (Some (permissions ++ more)%list)) with (permissions ++ more)%list.
  cbn [fst].
  destruct (matchingPermissions allPermissions permissions) as [|p l] eqn:Hm; [done|].
  intros _.
  assert (Hin : p ∈ matchingPermissions allPermissions (permissions ++ more)%list)
    by (apply Hmono; rewrite ?Hm; apply list_elem_of_here).
  destruct (matchingPermissions allPermissions (permissions ++ more)%list) as [|p' l'].
  - by apply elem_of_nil in Hin.
  - by eexists.
Qed.

Lemma Protect_more_required_witness :
  Samples.readRoles ∈
    matchingPermissions [Samples.readRoles] ([Samples.readRoles] ++ [Samples.updateRoles])%list /\
  exists shown',
    (Protect [Samples.readRoles] Samples.grantingHook id
       (Some ([Samples.readRoles] ++ [Samples.updateRoles])%list)).1 = Children shown'.
Proof.
  destruct (Protect_more_required [Samples.readRoles] Samples.grantingHook id
              [Samples.readRoles] [Samples.updateRoles]) as [Hmono Hshown].
  split.
  - apply Hmono. apply list_elem_of_In. vm_compute. auto.
  - apply (Hshown PageHelpersProps.grantingHook_honoursSkip
             ltac:(repeat constructor) [Samples.readRoles]).
    reflexivity.
Defined.

End PageHelpersExtras.
